(** * ThemeService (src/gui/src/services/ThemeService.js)

    A shallow embedding of Puter's theme service: the colour helpers
    ([hslToRgb], [getLuminance], [getContrastRatio], [blendWithWhite],
    [getOptimalTextColor]) over IEEE-754 binary64 numbers, and the
    [ThemeService] class ([_init], [reset], [apply], [get], [reload_],
    [save_], [commit_save_]) as state passing over a machine that holds
    the descriptor, the pending timers and a clock, each operation
    returning the effects it issues on its collaborators. *)

From Stdlib Require Import ZArith NArith Lia List String Ascii Bool Floats.
From Stdlib Require Import DecimalString.
From Stdlib Require Uint63.
Import ListNotations.

Set Warnings "-inexact-float,-register-all,-notation-for-abbreviation".

Local Open Scope float_scope.

(** ** JavaScript numbers

    A JavaScript number is a binary64 float: Rocq's primitive [float].
    [<?], [<=?] and [=?] are the IEEE comparisons, false on NaN, which is
    what [<], [<=] and [===] do on numbers. *)

Module JSNumber.

(** [Math.max] and [Math.min] of two numbers: NaN when either is NaN,
    and [+0] is larger than [-0]. *)
Definition Math_max (x y : float) : float :=
  if is_nan x || is_nan y then nan
  else if x <? y then y
  else if y <? x then x
  else if get_sign x then y else x.

Definition Math_min (x y : float) : float :=
  if is_nan x || is_nan y then nan
  else if x <? y then x
  else if y <? x then y
  else if get_sign x then x else y.

(** A non-negative integer below 2^63 as a number (exact below 2^53). *)
Definition of_Z (n : Z) : float := of_uint63 (Uint63.of_Z n).

(** [Math.round]: the integer closest to [x], a tie going up; NaN, the
    infinities and the integers are returned as they are, and a result of
    zero keeps the sign of [x]. With [x = ± m * 2^e] and [e < 0], the
    result is [floor ((± 2 m + 2^(-e)) / 2^(1 - e))]. *)
Definition Math_round (x : float) : float :=
  match Prim2SF x with
  | S754_finite s m e =>
      if (0 <=? e)%Z then x
      else
        let k := (- e)%Z in
        let twice := (if s then Z.neg m~0 else Z.pos m~0) in
        let n := Z.shiftr (twice + 2 ^ k) (k + 1) in
        if (n =? 0)%Z then (if s then (-0) else 0)
        else if (n <? 0)%Z then - of_Z (- n)
        else of_Z n
  | _ => x
  end.

End JSNumber.
Import JSNumber.

(** ** Colour helpers *)

Definition rgb : Type := (float * float * float)%type.

Section ColorMath.

(** [Math.pow] is the engine's: the language leaves its results
    implementation-approximated. *)
Variable Math_pow : float -> float -> float.

Definition hue2rgb (p q t : float) : float :=
  let t := if t <? 0 then t + 1 else t in
  let t := if 1 <? t then t - 1 else t in
  if t <? 1 / 6 then p + (q - p) * 6 * t
  else if t <? 1 / 2 then q
  else if t <? 2 / 3 then p + (q - p) * (2 / 3 - t) * 6
  else p.

Definition hslToRgb (h s l : float) : rgb :=
  let h := h / 360 in
  let s := s / 100 in
  let l := l / 100 in
  let '(r, g, b) :=
    if s =? 0 then (l, l, l)
    else
      let q := if l <? 0.5 then l * (1 + s) else l + s - l * s in
      let p := 2 * l - q in
      (hue2rgb p q (h + 1 / 3), hue2rgb p q h, hue2rgb p q (h - 1 / 3)) in
  (Math_round (r * 255), Math_round (g * 255), Math_round (b * 255)).

Definition linearize (val : float) : float :=
  let val := val / 255 in
  if val <=? 0.03928 then val / 12.92
  else Math_pow ((val + 0.055) / 1.055) 2.4.

Definition getLuminance (c : rgb) : float :=
  let '(r, g, b) := c in
  let r := linearize r in
  let g := linearize g in
  let b := linearize b in
  0.2126 * r + 0.7152 * g + 0.0722 * b.

Definition getContrastRatio (rgb1 rgb2 : rgb) : float :=
  let l1 := getLuminance rgb1 in
  let l2 := getLuminance rgb2 in
  let lighter := Math_max l1 l2 in
  let darker := Math_min l1 l2 in
  (lighter + 0.05) / (darker + 0.05).

Definition effectiveAlpha (alpha : float) : float := 0.5 + 0.5 * alpha.

Definition blendWithWhite (c : rgb) (alpha : float) : rgb :=
  let effectiveAlpha := effectiveAlpha alpha in
  let '(r, g, b) := c in
  (Math_round (r * effectiveAlpha + 255 * (1 - effectiveAlpha)),
   Math_round (g * effectiveAlpha + 255 * (1 - effectiveAlpha)),
   Math_round (b * effectiveAlpha + 255 * (1 - effectiveAlpha))).

Definition black : rgb := (0, 0, 0).
Definition white : rgb := (255, 255, 255).

Definition getOptimalTextColor (backgroundColor : rgb) : string :=
  let blackContrast := getContrastRatio black backgroundColor in
  let whiteContrast := getContrastRatio white backgroundColor in
  if whiteContrast <=? blackContrast then "#000000"%string
  else "#ffffff"%string.

End ColorMath.

(** One channel of [blendWithWhite]. *)
Definition blend_channel (alpha c : float) : float :=
  Math_round (c * effectiveAlpha alpha + 255 * (1 - effectiveAlpha alpha)).

(** The integers 0 to 255, the values a channel of a colour takes. *)
Definition channel_values : list Z := map Z.of_nat (seq 0 256).

(** ** JavaScript values and objects

    The values a descriptor, a parsed JSON text or an argument of [apply]
    can hold. An object is the list of its own properties in the order
    [JSON.stringify] and the spread syntax enumerate them: array indices
    first, ascending, then the other keys in the order they were created.
    A key that is listed twice (as a JSON text can) has the value of its
    last binding. *)

Inductive value : Type :=
| VUndefined
| VNull
| VBool (b : bool)
| VNum (n : float)
| VStr (s : string)
| VArr (elems : list value)
| VObj (props : list (string * value)).

Definition object : Type := list (string * value).

Local Open Scope string_scope.

Module JSObject.

Fixpoint get_prop (k : string) (o : object) : option value :=
  match o with
  | [] => None
  | (k', v) :: o' =>
      match get_prop k o' with
      | Some w => Some w
      | None => if String.eqb k k' then Some v else None
      end
  end.

(** [o[k]] on an object, own properties only: [undefined] when absent. *)
Definition prop (k : string) (o : object) : value :=
  match get_prop k o with Some v => v | None => VUndefined end.

Definition has_prop (k : string) (o : object) : bool :=
  existsb (fun kv => String.eqb k (fst kv)) o.

Definition update_prop (k : string) (v : value) (o : object) : object :=
  map (fun kv => if String.eqb k (fst kv) then (fst kv, v) else kv) o.

(** The array index a key spells, if it does: a canonical decimal
    numeral below 2^32 - 1. *)
Definition array_index (k : string) : option N :=
  match NilZero.uint_of_string k with
  | Some u =>
      let n := N.of_uint u in
      if String.eqb (NilZero.string_of_uint (N.to_uint n)) k
         && (n <? 4294967295)%N
      then Some n else None
  | None => None
  end.

Definition index_key (i : N) : string := NilZero.string_of_uint (N.to_uint i).

(** A new array index goes before the first key that is a larger index or
    not an index. *)
Fixpoint insert_index (i : N) (k : string) (v : value) (o : object) : object :=
  match o with
  | [] => [(k, v)]
  | (k', v') :: o' =>
      match array_index k' with
      | Some j =>
          if (j <? i)%N then (k', v') :: insert_index i k v o'
          else (k, v) :: o
      | None => (k, v) :: o
      end
  end.

(** [o[k] = v] as a data property: an existing key keeps its place. *)
Definition set_prop (k : string) (v : value) (o : object) : object :=
  if has_prop k o then update_prop k v o
  else match array_index k with
       | Some i => insert_index i k v o
       | None => (o ++ [(k, v)])%list
       end.

Fixpoint indexed (i : N) (l : list value) : object :=
  match l with
  | [] => []
  | x :: l' => (index_key i, x) :: indexed (N.succ i) l'
  end.

Fixpoint chars (s : string) : list value :=
  match s with
  | EmptyString => []
  | String c s' => VStr (String c EmptyString) :: chars s'
  end.

(** The own enumerable properties the spread syntax copies from a value:
    those of an object, the elements of an array, the characters of a
    string, none of the other primitives. *)
Definition own_props (v : value) : object :=
  match v with
  | VObj o => o
  | VArr l => indexed 0 l
  | VStr s => indexed 0 (chars s)
  | _ => []
  end.

Definition copy_props (target : object) (source : value) : object :=
  fold_left (fun acc kv => set_prop (fst kv) (snd kv) acc)
            (own_props source) target.

(** [{ ...a, ...b }] is [spread [a; b]]. *)
Definition spread (sources : list value) : object :=
  fold_left copy_props sources [].

(** [v.k] for a key that no prototype defines. *)
Definition member (v : value) (k : string) : value :=
  match v with
  | VObj o => prop k o
  | _ => VUndefined
  end.

Definition ToBoolean (v : value) : bool :=
  match v with
  | VUndefined | VNull => false
  | VBool b => b
  | VNum n => negb (is_nan n || is_zero n)
  | VStr s => negb (String.eqb s "")
  | VArr _ | VObj _ => true
  end.

End JSObject.
Import JSObject.

(** ** Collaborators

    What the service does to the style sheet root, the console, the
    broadcast service, the alert dialog, the file system and the timers is
    recorded as a list of effects, in the order issued. [Throw e] ends
    the list of a call that throws [e] (for [_init], whose promise then
    rejects with [e]): the call issues nothing after it. *)

Inductive effect : Type :=
| SetProperty (name : string) (v : value)
| ConsoleLog (args : list value)
| ConsoleError (args : list value)
| SendBroadcast (topic : string) (payload options : value)
| UIAlert (options : value)
| FsRead (path : string)
| FsDelete (path : string)
| FsWrite (path : string) (content : string)
| SetTimeout (handle : positive) (delay : N)
| ClearTimeout (handle : positive)
| Throw (error : value).

(** What [await puter.fs.read(...)] followed by [await data.text()] comes
    to: the read rejects with [e]; it resolves to a blob whose [text()]
    resolves to [text]; it resolves to a blob whose [text()] throws or
    rejects with [e]; or it resolves to a value that is not an object,
    here a string. *)
Inductive fs_read_result : Type :=
| ReadRejects (e : value)
| ReadBlob (text : string)
| ReadBlobFails (e : value)
| ReadString (s : string).

(** [JSON.parse] returns a value or throws an error object. *)
Inductive parse_result : Type :=
| ParseOk (v : value)
| ParseThrows (e : object).

(** The service ([state], [save_cooldown_]) with the timers of the page:
    the clock in milliseconds, the pending timeouts with the time each is
    due, and the next handle [setTimeout] hands out. Handles are positive,
    so a handle is truthy. *)
Record machine : Type := Machine {
  state : object;
  save_cooldown_ : option positive;
  clock : N;
  timers : list (positive * N);
  next_handle : positive
}.

Definition PUTER_THEME_DATA_FILENAME : string := "~/.__puter_gui.json".

Definition SAVE_COOLDOWN_TIME : N := 1000.

Definition default_values : object :=
  [("sat", VNum 41.18); ("hue", VNum 210); ("lig", VNum 93.33);
   ("alpha", VNum 0.8); ("light_text", VBool false)].

Definition dquote : string := String "034" EmptyString.

Module ThemeService.
Section Service.

(** The engine's and the platform's own functions: [Math.pow], the
    conversions between numbers and strings, [JSON.parse] and
    [JSON.stringify]; the [TypeError] the engine throws when a value has
    no conversion to a primitive or a property of [undefined] or [null]
    is read; and whether the style declaration's [setProperty] converts
    its value argument to a string, and so throws on a value that has no
    such conversion, before it returns. *)
Variable Math_pow : float -> float -> float.
Variable NumberToString : float -> string.
Variable StringToNumber : string -> float.
Variable JSON_parse : string -> parse_result.
Variable JSON_stringify : value -> N -> string.
Variable TypeError : value.
Variable setProperty_converts : bool.

(** The conversion of a value to a string, as [+ '%'] and
    [Array.prototype.join] do it: [None] when it throws [TypeError]. No
    value here is callable, so an object with an own [toString] property
    has no conversion, and any other object is ["[object Object]"].
    [join] writes [undefined] and [null] as nothing. *)
Fixpoint ToString (v : value) : option string :=
  match v with
  | VUndefined => Some "undefined"
  | VNull => Some "null"
  | VBool true => Some "true"
  | VBool false => Some "false"
  | VNum n => Some (NumberToString n)
  | VStr s => Some s
  | VArr l =>
      let element x :=
        match x with VUndefined | VNull => Some "" | _ => ToString x end in
      (fix join (l : list value) : option string :=
         match l with
         | [] => Some ""
         | [x] => element x
         | x :: l' =>
             match element x, join l' with
             | Some a, Some b => Some (a ++ "," ++ b)
             | _, _ => None
             end
         end) l
  | VObj o => if has_prop "toString" o then None else Some "[object Object]"
  end.

(** The conversion to a number, as [/] and [*] do it: [None] when it
    throws [TypeError]. *)
Definition ToNumber (v : value) : option float :=
  match v with
  | VUndefined => Some nan
  | VNull => Some 0
  | VBool true => Some 1
  | VBool false => Some 0
  | VNum n => Some n
  | VStr s => Some (StringToNumber s)
  | VArr _ | VObj _ => option_map StringToNumber (ToString v)
  end.

(** *** Calls that may throw *)

Definition throws (es : list effect) : bool :=
  existsb (fun e => match e with Throw _ => true | _ => false end) es.

(** [es] and then [k], unless [es] threw. *)
Definition and_then (es k : list effect) : list effect :=
  if throws es then es else (es ++ k)%list.

Local Notation "es ;; k" := (and_then es k)
  (at level 61, right associativity).

(** [this.root.style.setProperty(name, v)] *)
Definition setProperty (name : string) (v : value) : list effect :=
  if setProperty_converts then
    match ToString v with
    | Some _ => [SetProperty name v]
    | None => [Throw TypeError]
    end
  else [SetProperty name v].

(** [v + '%'] *)
Definition percent (v : value) : option value :=
  option_map (fun t => VStr (t ++ "%")) (ToString v).

Definition primaryColor (s : object) : value :=
  if ToBoolean (prop "light_text" s) then VStr "white" else VStr "#373e44".

(** The colour computed in the [try] of [reload_]: [hslToRgb] converts
    [s.hue], [s.sat] and [s.lig] to numbers when it divides them, and
    [blendWithWhite] converts [s.alpha] when it multiplies it; [None]
    when one of these throws. *)
Definition sidebarTextColor (s : object) : option string :=
  match ToNumber (prop "hue" s), ToNumber (prop "sat" s),
        ToNumber (prop "lig" s), ToNumber (prop "alpha" s) with
  | Some hue, Some sat, Some lig, Some alpha =>
      let sidebarRgb := hslToRgb hue sat lig in
      let blendedSidebarRgb := blendWithWhite sidebarRgb alpha in
      Some (getOptimalTextColor Math_pow blendedSidebarRgb)
  | _, _, _, _ => None
  end.

Definition reload_ (s : object) : list effect :=
  setProperty "--primary-hue" (prop "hue" s) ;;
  match percent (prop "sat" s) with
  | None => [Throw TypeError]
  | Some saturation =>
      setProperty "--primary-saturation" saturation ;;
      match percent (prop "lig" s) with
      | None => [Throw TypeError]
      | Some lightness =>
          setProperty "--primary-lightness" lightness ;;
          setProperty "--primary-alpha" (prop "alpha" s) ;;
          setProperty "--primary-color" (primaryColor s) ;;
          match sidebarTextColor s with
          | Some sidebarTextColor =>
              setProperty "--window-sidebar-title-color" (VStr sidebarTextColor) ;;
              setProperty "--window-sidebar-item-color" (VStr sidebarTextColor) ;;
              [ConsoleLog [VStr "[ThemeService] Sidebar text colors set to:";
                           VStr sidebarTextColor]]
          | None =>
              [ConsoleError
                 [VStr "[ThemeService] Error calculating sidebar colors:";
                  TypeError]]
          end ;;
          [SendBroadcast "themeChanged"
             (VObj [("palette",
                     VObj [("primaryHue", prop "hue" s);
                           ("primarySaturation", saturation);
                           ("primaryLightness", lightness);
                           ("primaryAlpha", prop "alpha" s);
                           ("primaryColor", primaryColor s)])])
             (VObj [("sendToNewAppInstances", VBool true)])]
      end
  end.

Definition commit_save_ (m : machine) : list effect :=
  [ FsWrite PUTER_THEME_DATA_FILENAME
      (JSON_stringify (VObj [("colors", VObj (state m))]) 5) ].

Definition clearTimeout (h : positive) (ts : list (positive * N))
  : list (positive * N) :=
  filter (fun t => negb (Pos.eqb (fst t) h)) ts.

Definition save_ (m : machine) : machine * list effect :=
  let '(ts, cleared) :=
    match save_cooldown_ m with
    | Some h => (clearTimeout h (timers m), [ClearTimeout h])
    | None => (timers m, [])
    end in
  let h := next_handle m in
  ({| state := state m;
      save_cooldown_ := Some h;
      clock := clock m;
      timers := ts ++ [(h, (clock m + SAVE_COOLDOWN_TIME)%N)];
      next_handle := Pos.succ h |},
   cleared ++ [SetTimeout h SAVE_COOLDOWN_TIME])%list.

(** What [save_] issues before it sets the new timeout. *)
Definition cleared (m : machine) : list effect :=
  match save_cooldown_ m with
  | Some h => [ClearTimeout h]
  | None => []
  end.

Definition set_state (s : object) (m : machine) : machine :=
  {| state := s;
     save_cooldown_ := save_cooldown_ m;
     clock := clock m;
     timers := timers m;
     next_handle := next_handle m |}.

(** [reset] and [apply] assign [this.state] and call [reload_]; what
    follows the render pass is not reached when it throws. *)
Definition reset (m : machine) : machine * list effect :=
  let m := set_state default_values m in
  (m, reload_ (state m) ;; [FsDelete PUTER_THEME_DATA_FILENAME]).

Definition apply (values : value) (m : machine) : machine * list effect :=
  let m := set_state (spread [VObj (state m); values]) m in
  let rendered := reload_ (state m) in
  if throws rendered then (m, rendered)
  else let '(m', saved) := save_ m in (m', rendered ++ saved)%list.

Definition get (key : string) (m : machine) : value := prop key (state m).

(** [e.code] for the value a [catch] caught: [None] when reading it
    throws, as it does on [undefined] and [null]. *)
Definition error_code (e : value) : option value :=
  match e with
  | VUndefined | VNull => None
  | VObj o => Some (prop "code" o)
  | _ => Some VUndefined
  end.

(** The [catch] around the read: [e.code !== 'subject_does_not_exist']
    logs [e]. *)
Definition read_failed (e : value) : list effect :=
  match error_code e with
  | None => [Throw TypeError]
  | Some (VStr c) =>
      if String.eqb c "subject_does_not_exist" then []
      else [ConsoleError [e]]
  | Some _ => [ConsoleError [e]]
  end.

(** The message of the alert, [None] when [+ e.message] throws. *)
Definition alert_message (e : object) : option string :=
  option_map
    (fun message =>
       "Could not parse " ++ dquote ++ PUTER_THEME_DATA_FILENAME ++ dquote
         ++ ": " ++ message)
    (ToString (prop "message" e)).

(** The [catch] around [JSON.parse]. *)
Definition parse_failed (e : object) : list effect :=
  [ConsoleError [VObj e]] ;;
  match alert_message e with
  | Some message =>
      [UIAlert (VObj [("title", VStr "Error loading theme data");
                      ("message", VStr message)])]
  | None => [Throw TypeError]
  end.

(** [_init], run to its end before any other call. [data] is what
    [data.toString()] gives, [None] for [undefined]: a blob whose
    [text()] failed is still in [data] after the [catch], and its string
    is ["[object Blob]"]. *)
Definition _init (r : fs_read_result) : machine * list effect :=
  let state0 :=
    [("sat", VNum 41.18); ("hue", VNum 210); ("lig", VNum 93.33);
     ("alpha", VNum 0.8); ("light_text", VBool false)] in
  let '(data, read_log) :=
    match r with
    | ReadRejects e => (None, read_failed e)
    | ReadBlob text => (Some text, [])
    | ReadBlobFails e => (Some "[object Blob]", read_failed e)
    | ReadString s => (Some s, [])
    end in
  let '(data, parse_log) :=
    match data with
    | Some text =>
        if ToBoolean (VStr text) then
          match JSON_parse text with
          | ParseOk v => (Some v, [])
          | ParseThrows e => (None, parse_failed e)
          end
        else (None, [])
    | None => (None, [])
    end in
  let state1 :=
    if throws read_log || throws parse_log then state0
    else
      match data with
      | Some d =>
          if ToBoolean d && ToBoolean (member d "colors")
          then spread [VObj state0; member d "colors"]
          else state0
      | None => state0
      end in
  ({| state := state1;
      save_cooldown_ := None;
      clock := 0;
      timers := [];
      next_handle := 1 |},
   [FsRead PUTER_THEME_DATA_FILENAME] ;; read_log ;; parse_log ;; reload_ state1).

(** *** Time

    [elapse dt] lets [dt] milliseconds pass with no call into the
    service: every timeout that is due by then runs its callback,
    [commit_save_], which reads the state of that moment. *)
Definition is_due (t : N) (timer : positive * N) : bool := (snd timer <=? t)%N.

Definition elapse (dt : N) (m : machine) : machine * list effect :=
  let t := (clock m + dt)%N in
  let m' := {| state := state m;
               save_cooldown_ := save_cooldown_ m;
               clock := t;
               timers := filter (fun timer => negb (is_due t timer)) (timers m);
               next_handle := next_handle m |} in
  (m', flat_map (fun _ => commit_save_ m') (filter (is_due t) (timers m))).

(** A history of the page after [_init]: calls of the service and
    stretches of time between them. *)
Inductive call : Type :=
| Apply (values : value)
| Reset
| Elapse (dt : N).

Definition step (c : call) (m : machine) : machine * list effect :=
  match c with
  | Apply values => apply values m
  | Reset => reset m
  | Elapse dt => elapse dt m
  end.

Fixpoint run (cs : list call) (m : machine) : machine * list effect :=
  match cs with
  | [] => (m, [])
  | c :: cs' =>
      let '(m1, e1) := step c m in
      let '(m2, e2) := run cs' m1 in
      (m2, e1 ++ e2)%list
  end.

(** The contents written to the store, in order. *)
Definition writes (es : list effect) : list string :=
  flat_map (fun e => match e with FsWrite _ c => [c] | _ => [] end) es.

(** The persisted record after the store has served the requests in the
    order they were issued: [None] when there is no record. *)
Definition serve (record : option string) (e : effect) : option string :=
  match e with
  | FsWrite p c =>
      if String.eqb p PUTER_THEME_DATA_FILENAME then Some c else record
  | FsDelete p =>
      if String.eqb p PUTER_THEME_DATA_FILENAME then None else record
  | _ => record
  end.

Definition alerts (es : list effect) : list value :=
  flat_map (fun e => match e with UIAlert o => [o] | _ => [] end) es.

(** The text read, when the read and [text()] both succeed. *)
Definition read_text (r : fs_read_result) : option string :=
  match r with
  | ReadBlob text => Some text
  | ReadString s => Some s
  | ReadRejects _ | ReadBlobFails _ => None
  end.

(** What the [catch] around the read issues. *)
Definition read_log (r : fs_read_result) : list effect :=
  match r with
  | ReadRejects e | ReadBlobFails e => read_failed e
  | ReadBlob _ | ReadString _ => []
  end.

(** What [data.toString()] is after the read, when [data] is not
    [undefined]: the text read, or the string of a blob whose [text()]
    failed. *)
Definition parsed_text (r : fs_read_result) : option string :=
  match r with
  | ReadRejects _ => None
  | ReadBlob text => Some text
  | ReadBlobFails _ => Some "[object Blob]"
  | ReadString s => Some s
  end.

(** What the [catch] around [JSON.parse] issues: nothing when there is
    nothing to parse, the text is empty or the parse succeeds. *)
Definition parse_log (r : fs_read_result) : list effect :=
  match parsed_text r with
  | Some text =>
      if ToBoolean (VStr text) then
        match JSON_parse text with
        | ParseOk _ => []
        | ParseThrows e => parse_failed e
        end
      else []
  | None => []
  end.

(** Every pending timeout is the one [save_cooldown_] holds. *)
Definition one_pending (m : machine) : Prop :=
  forall h due, In (h, due) (timers m) -> save_cooldown_ m = Some h.

Definition store_after (es : list effect) (record : option string)
  : option string :=
  fold_left serve es record.

(** The effects that reach neither the store's contents nor the
    timers. *)
Definition quiet_effect (e : effect) : bool :=
  match e with
  | FsWrite _ _ | FsDelete _ | SetTimeout _ _ | ClearTimeout _ => false
  | _ => true
  end.

(** The effects a render pass can have. *)
Definition render_effect (e : effect) : bool :=
  match e with
  | SetProperty _ _ | ConsoleLog _ | ConsoleError _
  | SendBroadcast _ _ _ | Throw _ => true
  | _ => false
  end.

(** The four fields the render pass converts all have a conversion. *)
Definition converts (v : value) : bool :=
  match ToString v with Some _ => true | None => false end.

Definition convertible (s : object) : bool :=
  converts (prop "hue" s) && converts (prop "sat" s)
  && converts (prop "lig" s) && converts (prop "alpha" s).

End Service.
End ThemeService.

(** ** Whole-number inputs

    The percentages 0 to 100, and the test that a number is a channel
    value: a whole number from 0 to 255. *)

Definition percent_values : list Z := map Z.of_nat (seq 0 101).

Definition is_channel (c : float) : bool :=
  ((0 <=? c) && (c <=? 255))%float && Leibniz.eqb (Math_round c) c.

(** [hslToRgb(NaN, s, l)] is a grey of channel values, no lighter than
    the grey of lightness [l] with no saturation. *)
Definition grey_check (s l : Z) : bool :=
  let '(r, g, b) := hslToRgb nan (of_Z s) (of_Z l) in
  Leibniz.eqb r g && Leibniz.eqb g b && is_channel r
  && (r <=? Math_round (of_Z l / 100 * 255))%float.

(** ** Histories

    The fields of a descriptor, a burst of [apply] calls with the time
    that passes after each, and the descriptor that a run of [apply]
    calls merges. *)

Definition descriptor_fields : list string :=
  ["sat"; "hue"; "lig"; "alpha"; "light_text"].

(** Every field of a descriptor is an own property of [s]. *)
Definition has_fields (s : object) : Prop :=
  forall key, In key descriptor_fields -> has_prop key s = true.

(** At most one timeout is pending, the one [save_cooldown_] holds. *)
Definition settled (m : machine) : Prop :=
  ThemeService.one_pending m /\ (List.length (timers m) <= 1)%nat.

Definition burst (l : list (value * N)) : list ThemeService.call :=
  flat_map (fun vd => [ThemeService.Apply (fst vd); ThemeService.Elapse (snd vd)]) l.

Definition merged (s : object) (vs : list value) : object :=
  fold_left (fun s v => spread [VObj s; v]) vs s.

(** The descriptors a run of [apply] calls goes through, one per call. *)
Fixpoint merges (s : object) (vs : list value) : list object :=
  match vs with
  | [] => []
  | v :: vs' => spread [VObj s; v] :: merges (spread [VObj s; v]) vs'
  end.

Definition total (dts : list N) : N := fold_right N.add 0%N dts.

(** ** Sample engine functions

    Stand-ins for the engine's functions, enough to run the service on
    the examples below. *)

Module Sample.

Definition pow (b e : float) : float := if (b =? 1)%float then 1 else nan.

Definition number_to_string (n : float) : string :=
  if (n =? 120)%float then "120"
  else if (n =? 210)%float then "210"
  else if (n =? 41.18)%float then "41.18"
  else if (n =? 93.33)%float then "93.33"
  else if (n =? 0.8)%float then "0.8"
  else if (n =? 0.5)%float then "0.5" else "NaN".

Definition string_to_number (s : string) : float :=
  if String.eqb s "120" then 120 else nan.

Definition top_level_text : string :=
  "{" ++ dquote ++ "hue" ++ dquote ++ ":120}".

Definition colors_text : string :=
  "{" ++ dquote ++ "colors" ++ dquote ++ ":" ++ top_level_text ++ "}".

Definition malformed_text : string := "{not json".

Definition syntax_error : object :=
  [("name", VStr "SyntaxError");
   ("message", VStr "Expected property name or '}' in JSON at position 1")].

Definition parse (text : string) : parse_result :=
  if String.eqb text top_level_text then
    ParseOk (VObj [("hue", VNum 120)])
  else if String.eqb text colors_text then
    ParseOk (VObj [("colors", VObj [("hue", VNum 120)])])
  else ParseThrows syntax_error.

Definition stringify (v : value) (indent : N) : string :=
  match v with
  | VObj [("colors", VObj o)] =>
      "{colors:" ++ concat "," (map fst o) ++ "}"
  | _ => "null"
  end.

Definition not_found : value :=
  VObj [("code", VStr "subject_does_not_exist")].

Definition forbidden : value := VObj [("code", VStr "forbidden")].

Definition type_error : value :=
  VObj [("name", VStr "TypeError");
        ("message", VStr "Cannot convert object to primitive value")].

(** A value with no conversion to a primitive: its [toString] is not
    callable. *)
Definition unconvertible : value := VObj [("toString", VNum 1)].





Definition fresh : machine :=
  {| state := default_values; save_cooldown_ := None; clock := 0;
     timers := []; next_handle := 1 |}.

End Sample.

(** ** Facts on the comparisons of numbers *)

Module FloatFacts.

Local Open Scope float_scope.

Lemma SFcompare_antisym (x y : spec_float) :
  SFcompare y x = option_map CompOpp (SFcompare x y).
Proof.
  destruct x as [sx|sx| |sx mx ex], y as [sy|sy| |sy my ey];
    try destruct sx; try destruct sy; simpl; try reflexivity;
    rewrite (Z.compare_antisym ex ey);
    destruct (ex ?= ey)%Z; simpl; try reflexivity;
    rewrite !Pos.compare_cont_spec, (Pos.compare_antisym mx my);
    destruct (mx ?= my)%positive; reflexivity.
Qed.

Lemma SFcompare_Eq (x y : spec_float) :
  SFcompare x y = Some Eq ->
  x = y \/ exists sx sy, x = S754_zero sx /\ y = S754_zero sy.
Proof.
  destruct x as [sx|sx| |sx mx ex], y as [sy|sy| |sy my ey];
    try destruct sx; try destruct sy; simpl; try discriminate;
    try (intros _; left; reflexivity);
    try (intros _; right; eexists; eexists; split; reflexivity).
  all: destruct (ex ?= ey)%Z eqn:He; try discriminate;
    apply Z.compare_eq in He; subst ey;
    rewrite Pos.compare_cont_spec; simpl;
    destruct (mx ?= my)%positive eqn:Hm; try discriminate;
    apply Pos.compare_eq in Hm; subst my; intros _; left; reflexivity.
Qed.

Lemma ltb_asym (x y : float) : (x <? y) = true -> (y <? x) = false.
Proof.
  rewrite !ltb_spec. unfold SFltb.
  rewrite (SFcompare_antisym (Prim2SF x) (Prim2SF y)).
  destruct (SFcompare (Prim2SF x) (Prim2SF y)) as [[ | | ]|];
    simpl; congruence.
Qed.

Lemma ltb_leb (x y : float) : (x <? y) = true -> (x <=? y) = true.
Proof.
  rewrite ltb_spec, leb_spec. unfold SFltb, SFleb.
  destruct (SFcompare (Prim2SF x) (Prim2SF y)) as [[ | | ]|]; congruence.
Qed.

Lemma eqb_leb (x y : float) : (x =? y) = true -> (x <=? y) = true.
Proof.
  rewrite eqb_spec, leb_spec. unfold SFeqb, SFleb.
  destruct (SFcompare (Prim2SF x) (Prim2SF y)) as [[ | | ]|]; congruence.
Qed.

Lemma eqb_geb (x y : float) : (x =? y) = true -> (y <=? x) = true.
Proof.
  rewrite eqb_spec, leb_spec. unfold SFeqb, SFleb.
  rewrite (SFcompare_antisym (Prim2SF x) (Prim2SF y)).
  destruct (SFcompare (Prim2SF x) (Prim2SF y)) as [[ | | ]|];
    simpl; congruence.
Qed.

Lemma ltb_not_leb (x y : float) : (x <? y) = true -> (y <=? x) = false.
Proof.
  rewrite ltb_spec, leb_spec. unfold SFltb, SFleb.
  rewrite (SFcompare_antisym (Prim2SF x) (Prim2SF y)).
  destruct (SFcompare (Prim2SF x) (Prim2SF y)) as [[ | | ]|];
    simpl; congruence.
Qed.

(** A number that is a zero is [0] or [-0]. *)
Lemma zero_cases (x : float) (s : bool) :
  Prim2SF x = S754_zero s -> x = if s then (-0) else 0.
Proof.
  intros H. apply Prim2SF_inj. rewrite H. destruct s; reflexivity.
Qed.

(** Two numbers, neither NaN, neither below the other, are the same
    number or are both zeros. *)
Lemma not_lt_cases (x y : float) :
  is_nan x = false -> is_nan y = false ->
  (x <? y) = false -> (y <? x) = false ->
  x = y \/ ((x = 0 \/ x = -0) /\ (y = 0 \/ y = -0)).
Proof.
  unfold is_nan. rewrite !Bool.negb_false_iff, !eqb_spec, !ltb_spec.
  unfold SFeqb, SFltb.
  rewrite (SFcompare_antisym (Prim2SF x) (Prim2SF y)).
  intros Hx Hy.
  destruct (SFcompare (Prim2SF x) (Prim2SF y)) as [[ | | ]|] eqn:Hc;
    simpl; try discriminate.
  - intros _ _. destruct (SFcompare_Eq _ _ Hc) as [E | (sx & sy & Ex & Ey)].
    + left. now apply Prim2SF_inj.
    + right. apply zero_cases in Ex, Ey.
      destruct sx, sy; subst; auto.
  - exfalso.
    destruct (Prim2SF x) as [sx|sx| |sx mx ex], (Prim2SF y) as [sy|sy| |sy my ey];
      simpl in *; discriminate.
Qed.

Lemma Math_max_comm (x y : float) : Math_max x y = Math_max y x.
Proof.
  unfold Math_max. rewrite (Bool.orb_comm (is_nan y)).
  destruct (is_nan x) eqn:Nx; [reflexivity|].
  destruct (is_nan y) eqn:Ny; [reflexivity|]. simpl.
  destruct (x <? y) eqn:Hxy.
  - now rewrite (ltb_asym _ _ Hxy).
  - destruct (y <? x) eqn:Hyx; [reflexivity|].
    destruct (not_lt_cases x y Nx Ny Hxy Hyx) as [E | [[Ex|Ex] [Ey|Ey]]];
      subst; reflexivity.
Qed.

Lemma Math_min_comm (x y : float) : Math_min x y = Math_min y x.
Proof.
  unfold Math_min. rewrite (Bool.orb_comm (is_nan y)).
  destruct (is_nan x) eqn:Nx; [reflexivity|].
  destruct (is_nan y) eqn:Ny; [reflexivity|]. simpl.
  destruct (x <? y) eqn:Hxy.
  - now rewrite (ltb_asym _ _ Hxy).
  - destruct (y <? x) eqn:Hyx; [reflexivity|].
    destruct (not_lt_cases x y Nx Ny Hxy Hyx) as [E | [[Ex|Ex] [Ey|Ey]]];
      subst; reflexivity.
Qed.

End FloatFacts.


(** ** Rounding to nearest keeps a value above one half

    The specification of binary64 addition and multiplication ([SFadd],
    [SFmul]) rounds through [binary_round_aux]. A positive value
    [m * 2^e] is at least one half when [digits m + e] is not negative,
    and rounding keeps that. *)

Module RoundingFacts.

Local Open Scope Z_scope.

Lemma digits2_size (m : positive) : digits2_pos m = Pos.size m.
Proof. induction m; simpl; congruence. Qed.

Lemma digits2_mono (m : positive) :
  forall m', (m <= m')%positive -> (digits2_pos m <= digits2_pos m')%positive.
Proof.
  induction m as [p IH|p IH|]; intros [p'|p'|] H; simpl;
    try lia; specialize (IH p'); lia.
Qed.

Lemma digits2_iter_xO (d m : positive) :
  digits2_pos (Pos.iter xO m d) = (digits2_pos m + d)%positive.
Proof.
  revert m. induction d using Pos.peano_ind; intros m.
  - simpl. lia.
  - rewrite Pos.iter_succ. simpl. rewrite IHd. lia.
Qed.

(** Shifting a mantissa of at least two digits right by one bit takes
    one digit off. *)
Lemma shr_1_digits (mrs : shr_record) (m : positive) :
  shr_m mrs = Zpos m -> (1 < digits2_pos m)%positive ->
  exists m', shr_m (shr_1 mrs) = Zpos m'
             /\ Zpos (digits2_pos m') = Zpos (digits2_pos m) - 1.
Proof.
  destruct mrs as [mm r s]. cbn [shr_m]. intros -> H.
  destruct m as [p|p|]; cbn [shr_1 shr_m digits2_pos] in *.
  - exists p. split; [reflexivity|]. rewrite Pos2Z.inj_succ. lia.
  - exists p. split; [reflexivity|]. rewrite Pos2Z.inj_succ. lia.
  - lia.
Qed.

Lemma iter_shr_1_digits (p : positive) :
  forall (mrs : shr_record) (m : positive),
    shr_m mrs = Zpos m -> (p < digits2_pos m)%positive ->
    exists m', shr_m (iter_pos shr_1 p mrs) = Zpos m'
               /\ Zpos (digits2_pos m') = Zpos (digits2_pos m) - Zpos p.
Proof.
  induction p as [p IH|p IH|]; intros mrs m Hm Hp; cbn [iter_pos].
  - destruct (shr_1_digits mrs m Hm) as (m1 & H1 & D1); [lia|].
    destruct (IH _ m1 H1) as (m2 & H2 & D2); [lia|].
    destruct (IH _ m2 H2) as (m3 & H3 & D3); [lia|].
    exists m3. split; [exact H3|lia].
  - destruct (IH _ m Hm) as (m2 & H2 & D2); [lia|].
    destruct (IH _ m2 H2) as (m3 & H3 & D3); [lia|].
    exists m3. split; [exact H3|lia].
  - apply shr_1_digits; assumption.
Qed.

Lemma shr_m_of_loc (m : Z) (l : location) : shr_m (shr_record_of_loc m l) = m.
Proof. destruct l as [|[ | | ]]; reflexivity. Qed.

Lemma shr_fexp_digits (m : positive) (e : Z) (l : location) :
  0 <= Zpos (digits2_pos m) + e ->
  exists m', shr_m (fst (shr_fexp prec emax (Zpos m) e l)) = Zpos m'
             /\ Zpos (digits2_pos m') + snd (shr_fexp prec emax (Zpos m) e l)
                = Zpos (digits2_pos m) + e.
Proof.
  intros H. unfold shr_fexp, shr. cbn [Zdigits2].
  assert (F : fexp prec emax (Zpos (digits2_pos m) + e)
              = Z.max (Zpos (digits2_pos m) + e - 53) (-1074)) by reflexivity.
  destruct (fexp prec emax (Zpos (digits2_pos m) + e) - e) as [|p|p] eqn:E;
    cbn [fst snd].
  - exists m. now rewrite shr_m_of_loc.
  - destruct (iter_shr_1_digits p (shr_record_of_loc (Zpos m) l) m
                (shr_m_of_loc _ _)) as (m' & H1 & D1); [lia|].
    exists m'. split; [exact H1|]. lia.
  - exists m. now rewrite shr_m_of_loc.
Qed.

Lemma round_digits (m : positive) (l : location) :
  exists m', round_nearest_even (Zpos m) l = Zpos m'
             /\ (digits2_pos m <= digits2_pos m')%positive.
Proof.
  assert (S : (digits2_pos m <= digits2_pos (m + 1))%positive)
    by (apply digits2_mono; lia).
  destruct l as [|[ | | ]]; cbn [round_nearest_even].
  - exists m. split; [reflexivity|lia].
  - destruct (Z.even (Zpos m)).
    + exists m. split; [reflexivity|lia].
    + exists (m + 1)%positive. split; [reflexivity|exact S].
  - exists m. split; [reflexivity|lia].
  - exists (m + 1)%positive. split; [reflexivity|exact S].
Qed.

(** Rounding a positive value of at least one half gives a value of at
    least one half. *)
Lemma binary_round_aux_lower (s : bool) (m : positive) (e : Z) (l : location) :
  0 <= Zpos (digits2_pos m) + e ->
  binary_round_aux prec emax s (Zpos m) e l = S754_infinity s
  \/ exists m' e',
       binary_round_aux prec emax s (Zpos m) e l = S754_finite s m' e'
       /\ 0 <= Zpos (digits2_pos m') + e'.
Proof.
  intros H. unfold binary_round_aux.
  destruct (shr_fexp_digits m e l H) as (m1 & H1 & D1).
  destruct (shr_fexp prec emax (Zpos m) e l) as [mrs1 e1]. cbn [fst snd] in *.
  rewrite H1.
  destruct (round_digits m1 (loc_of_shr_record mrs1)) as (m2 & H2 & D2).
  rewrite H2.
  destruct (shr_fexp_digits m2 e1 loc_Exact) as (m3 & H3 & D3); [lia|].
  destruct (shr_fexp prec emax (Zpos m2) e1 loc_Exact) as [mrs3 e3].
  cbn [fst snd] in *. rewrite H3.
  destruct (e3 <=? emax - prec); [right|left; reflexivity].
  exists m3, e3. split; [reflexivity|lia].
Qed.

Lemma shr_1_nonneg (mrs : shr_record) :
  0 <= shr_m mrs -> 0 <= shr_m (shr_1 mrs).
Proof.
  destruct mrs as [[|[p|p|]|p] r s]; cbn [shr_1 shr_m]; lia.
Qed.

Lemma iter_shr_1_nonneg (p : positive) :
  forall mrs, 0 <= shr_m mrs -> 0 <= shr_m (iter_pos shr_1 p mrs).
Proof.
  induction p as [p IH|p IH|]; intros mrs H; cbn [iter_pos].
  - apply IH, IH, shr_1_nonneg, H.
  - apply IH, IH, H.
  - apply shr_1_nonneg, H.
Qed.

Lemma shr_fexp_nonneg (m e : Z) (l : location) :
  0 <= m -> 0 <= shr_m (fst (shr_fexp prec emax m e l)).
Proof.
  intros H. unfold shr_fexp, shr.
  destruct (fexp prec emax (Zdigits2 m + e) - e) as [|p|p]; cbn [fst];
    try apply iter_shr_1_nonneg; now rewrite shr_m_of_loc.
Qed.

Lemma round_nonneg (m : Z) (l : location) :
  0 <= m -> 0 <= round_nearest_even m l.
Proof.
  intros H. destruct l as [|[ | | ]]; cbn [round_nearest_even];
    try destruct (Z.even m); lia.
Qed.

(** Rounding a positive value keeps the sign and gives a number. *)
Lemma binary_round_aux_sign (s : bool) (m : positive) (e : Z) (l : location) :
  binary_round_aux prec emax s (Zpos m) e l = S754_zero s
  \/ binary_round_aux prec emax s (Zpos m) e l = S754_infinity s
  \/ exists m' e', binary_round_aux prec emax s (Zpos m) e l = S754_finite s m' e'.
Proof.
  unfold binary_round_aux.
  pose proof (shr_fexp_nonneg (Zpos m) e l) as H1.
  destruct (shr_fexp prec emax (Zpos m) e l) as [mrs1 e1]. cbn [fst] in H1.
  pose proof (shr_fexp_nonneg
                (round_nearest_even (shr_m mrs1) (loc_of_shr_record mrs1))
                e1 loc_Exact) as H2.
  destruct (shr_fexp prec emax _ e1 loc_Exact) as [mrs2 e2]. cbn [fst] in H2.
  destruct (shr_m mrs2) as [|p|p].
  - now left.
  - destruct (e2 <=? emax - prec); right; [right|left]; eauto.
  - exfalso. assert (0 <= Zneg p); [|lia].
    apply H2, round_nonneg, H1. lia.
Qed.

Lemma shl_align_le (m : positive) (e e' : Z) :
  e' <= e ->
  Zpos (digits2_pos (fst (shl_align m e e'))) + e' = Zpos (digits2_pos m) + e.
Proof.
  intros H. unfold shl_align.
  destruct (e' - e) as [|d|d] eqn:E; cbn [fst].
  - lia.
  - lia.
  - rewrite digits2_iter_xO. lia.
Qed.

Lemma shl_align_digits (m : positive) (e e' : Z) :
  Zpos (digits2_pos (fst (shl_align m e e'))) + snd (shl_align m e e')
  = Zpos (digits2_pos m) + e.
Proof.
  unfold shl_align.
  destruct (e' - e) as [|d|d] eqn:E; cbn [fst snd]; try reflexivity.
  rewrite digits2_iter_xO. lia.
Qed.

Lemma binary_round_lower (s : bool) (m : positive) (e : Z) :
  0 <= Zpos (digits2_pos m) + e ->
  binary_round prec emax s m e = S754_infinity s
  \/ exists m' e',
       binary_round prec emax s m e = S754_finite s m' e'
       /\ 0 <= Zpos (digits2_pos m') + e'.
Proof.
  intros H. unfold binary_round.
  pose proof (shl_align_digits m e
                (fexp prec emax (Zpos (digits2_pos m) + e))) as D.
  destruct (shl_align m e _) as [mz ez]. cbn [fst snd] in D.
  apply binary_round_aux_lower. lia.
Qed.

Lemma digits2_lower (m : positive) :
  digits2_pos m = 53%positive -> (4503599627370496 <= m)%positive.
Proof.
  intros H. pose proof (Pos.size_le m) as L.
  rewrite <- digits2_size, H in L.
  change (2 ^ 53)%positive with 9007199254740992%positive in L. lia.
Qed.

Local Open Scope float_scope.

Lemma half_plus_lower (y : float) :
  (exists s, Prim2SF y = S754_zero s)
  \/ Prim2SF y = S754_infinity false
  \/ (exists m e, Prim2SF y = S754_finite false m e) ->
  (0.5 <=? 0.5 + y) = true.
Proof.
  intros [[s Hy]|[Hy|(m & e & Hy)]].
  - assert (E : y = if s then (-0) else 0).
    { apply Prim2SF_inj. rewrite Hy. now destruct s. }
    subst y. now destruct s.
  - assert (E : y = infinity) by (apply Prim2SF_inj; now rewrite Hy).
    subst y. reflexivity.
  - rewrite leb_spec. pose proof (Prim2SF_valid (0.5 + y)) as V.
    rewrite add_spec, Hy in *.
    change (Prim2SF 0.5) with (S754_finite false 4503599627370496 (-53)) in *.
    unfold SF64add, SFadd, binary_normalize in *.
    set (ez := Z.min (-53) e) in *.
    assert (Hez : (ez <= -53)%Z) by (unfold ez; lia).
    pose proof (shl_align_le 4503599627370496 (-53) ez Hez) as Da.
    set (a := fst (shl_align 4503599627370496 (-53) ez)) in *.
    set (b := fst (shl_align m e ez)) in *.
    cbn [cond_Zopp Z.add] in V |- *.
    clearbody a b ez.
    pose proof (digits2_mono a (a + b)%positive ltac:(lia)) as Dab.
    destruct (binary_round_lower false (a + b) ez) as [R|(m' & e' & R & D)].
    { change (digits2_pos 4503599627370496) with 53%positive in Da. lia. }
    + rewrite R. reflexivity.
    + rewrite R in *. cbn [valid_binary] in V.
      unfold bounded, canonical_mantissa in V.
      apply Bool.andb_true_iff in V as [C _]. apply Z.eqb_eq in C.
      assert (F : fexp prec emax (Zpos (digits2_pos m') + e')
                  = Z.max (Zpos (digits2_pos m') + e' - 53) (-1074))
        by reflexivity.
      unfold SFleb, SFcompare.
      destruct (Z.compare_spec (-53) e') as [E|E|E].
      * assert (Hd : digits2_pos m' = 53%positive) by lia.
        apply digits2_lower in Hd. cbv beta iota.
        rewrite Pos.compare_cont_spec.
        destruct (Pos.compare_spec 4503599627370496 m') as [P|P|P].
        -- reflexivity.
        -- reflexivity.
        -- apply Pos.lt_nle in P. elim (P Hd).
      * reflexivity.
      * exfalso. lia.
Qed.

(** The effective alpha of a non-negative alpha is at least one half. *)
Lemma effectiveAlpha_lower (alpha : float) :
  (0 <=? alpha) = true -> (0.5 <=? effectiveAlpha alpha) = true.
Proof.
  intros H. unfold effectiveAlpha. apply half_plus_lower.
  rewrite leb_spec in H. rewrite mul_spec.
  change (Prim2SF 0) with (S754_zero false) in H.
  change (Prim2SF 0.5) with (S754_finite false 4503599627370496 (-53)).
  unfold SFleb in H.
  destruct (Prim2SF alpha) as [s|s| |s m e]; cbn [SFcompare] in H;
    try discriminate H.
  - left. exists s. reflexivity.
  - destruct s; [discriminate H|]. right. left. reflexivity.
  - destruct s; [discriminate H|].
    unfold SF64mul, SFmul. cbn [xorb].
    destruct (binary_round_aux_sign false (4503599627370496 * m)
                (-53 + e) loc_Exact) as [R|[R|(m' & e' & R)]]; rewrite R.
    + left. now exists false.
    + right. now left.
    + right. right. now exists m', e'.
Qed.

End RoundingFacts.

(** ** The colour helpers *)

Section ColorFacts.

Local Open Scope float_scope.
Import FloatFacts.

Variable Math_pow : float -> float -> float.

Lemma getContrastRatio_swap (a b : rgb) :
  getContrastRatio Math_pow a b = getContrastRatio Math_pow b a.
Proof.
  unfold getContrastRatio.
  now rewrite Math_max_comm, Math_min_comm.
Qed.

(** C9. [getContrastRatio] is symmetric: for every two colours [a] and
    [b], whatever their channels and whatever [Math.pow] computes,
    [getContrastRatio(a, b)] and [getContrastRatio(b, a)] are the same
    number. *)
Theorem getContrastRatio_symmetric (a b : rgb) :
  getContrastRatio Math_pow a b = getContrastRatio Math_pow b a.
Proof. exact (getContrastRatio_swap a b). Qed.

(** The same under [===], which is false on NaN. *)
Lemma getContrastRatio_symmetric_eqb (a b : rgb) :
  is_nan (getContrastRatio Math_pow a b) = false ->
  (getContrastRatio Math_pow a b =? getContrastRatio Math_pow b a) = true.
Proof.
  rewrite <- (getContrastRatio_swap a b). unfold is_nan.
  now rewrite Bool.negb_false_iff.
Qed.

(** C10. With [Math.pow(1, 2.4)] equal to 1, as it is mathematically,
    the contrast ratio of black against black is exactly 1 and that of
    black against white is exactly 21. *)
Theorem getContrastRatio_bounds :
  Math_pow 1 2.4 = 1 ->
  getContrastRatio Math_pow black black = 1
  /\ getContrastRatio Math_pow black white = 21.
Proof.
  intros Hpow. split.
  - vm_compute. reflexivity.
  - unfold getContrastRatio, getLuminance, black, white, linearize.
    replace (255 / 255 <=? 0.03928) with false by (vm_compute; reflexivity).
    replace ((255 / 255 + 0.055) / 1.055) with 1 by (vm_compute; reflexivity).
    rewrite Hpow. vm_compute. reflexivity.
Qed.

(** C6. [getOptimalTextColor] returns ["#000000"] or ["#ffffff"] and
    nothing else; it returns black when black's contrast ratio against
    the background is the higher one or when the two are equal, and
    white when white's is the higher one. *)
Theorem getOptimalTextColor_better (backgroundColor : rgb) :
  let blackContrast := getContrastRatio Math_pow black backgroundColor in
  let whiteContrast := getContrastRatio Math_pow white backgroundColor in
  let chosen := getOptimalTextColor Math_pow backgroundColor in
  (chosen = "#000000"%string \/ chosen = "#ffffff"%string)
  /\ ((whiteContrast <? blackContrast) = true -> chosen = "#000000"%string)
  /\ ((blackContrast =? whiteContrast) = true -> chosen = "#000000"%string)
  /\ ((blackContrast <? whiteContrast) = true -> chosen = "#ffffff"%string).
Proof.
  intros blackContrast whiteContrast chosen.
  unfold chosen, getOptimalTextColor.
  fold blackContrast. fold whiteContrast.
  repeat split.
  - destruct (whiteContrast <=? blackContrast); auto.
  - intros H. now rewrite (ltb_leb _ _ H).
  - intros H. now rewrite (eqb_geb _ _ H).
  - intros H. now rewrite (ltb_not_leb _ _ H).
Qed.

Lemma channel_values_spec (n : Z) :
  (0 <= n <= 255)%Z -> In n channel_values.
Proof.
  intros H. unfold channel_values. apply in_map_iff.
  exists (Z.to_nat n). split; [lia|]. apply in_seq. lia.
Qed.

Lemma for_channels (P : Z -> bool) :
  forallb P channel_values = true ->
  forall n, (0 <= n <= 255)%Z -> P n = true.
Proof.
  intros H n Hn. rewrite forallb_forall in H.
  apply H, channel_values_spec, Hn.
Qed.

Lemma blendWithWhite_channels (r g b alpha : float) :
  blendWithWhite (r, g, b) alpha
  = (blend_channel alpha r, blend_channel alpha g, blend_channel alpha b).
Proof. reflexivity. Qed.

Lemma blend_channel_opaque (n : Z) :
  (0 <= n <= 255)%Z -> blend_channel 1 (of_Z n) = of_Z n.
Proof.
  intros Hn. apply Leibniz.eqb_spec. revert n Hn.
  apply (for_channels
           (fun n => Leibniz.eqb (blend_channel 1 (of_Z n)) (of_Z n))).
  vm_compute. reflexivity.
Qed.

Lemma blend_channel_clear (n : Z) :
  (0 <= n <= 255)%Z -> blend_channel 0 (of_Z n) = of_Z ((n + 256) / 2).
Proof.
  intros Hn. apply Leibniz.eqb_spec. revert n Hn.
  apply (for_channels
           (fun n => Leibniz.eqb (blend_channel 0 (of_Z n))
                                 (of_Z ((n + 256) / 2)))).
  vm_compute. reflexivity.
Qed.

Lemma blend_channel_clear_255 (n : Z) :
  (0 <= n <= 255)%Z ->
  blend_channel 0 (of_Z n) = 255 <-> (254 <= n)%Z.
Proof.
  intros Hn. rewrite <- Leibniz.eqb_spec, <- Z.leb_le.
  enough (E : Bool.eqb (Leibniz.eqb (blend_channel 0 (of_Z n)) 255)
                       (254 <=? n)%Z = true).
  { apply Bool.eqb_prop in E. now rewrite E. }
  revert n Hn.
  apply (for_channels
           (fun n => Bool.eqb (Leibniz.eqb (blend_channel 0 (of_Z n)) 255)
                              (254 <=? n)%Z)).
  vm_compute. reflexivity.
Qed.

(** C8. For integer channels in 0..255, [blendWithWhite(rgb, 1)] is
    [rgb], and [blendWithWhite(rgb, 0)] is the blend halfway to white,
    each channel [Math.round(channel * 0.5 + 255 * 0.5)], that is
    [(channel + 256) div 2]: pure white only for channels that are all
    254 or 255. The effective alpha is 0.5 at alpha 0 and 1 at alpha 1,
    and for no alpha that is 0 or more is it below 0.5. *)
Theorem blendWithWhite_endpoints (r g b : Z) :
  (0 <= r <= 255)%Z -> (0 <= g <= 255)%Z -> (0 <= b <= 255)%Z ->
  let c : rgb := (of_Z r, of_Z g, of_Z b) in
  blendWithWhite c 1 = c
  /\ blendWithWhite c 0
     = (Math_round (of_Z r * 0.5 + 255 * 0.5),
        Math_round (of_Z g * 0.5 + 255 * 0.5),
        Math_round (of_Z b * 0.5 + 255 * 0.5))
  /\ blendWithWhite c 0
     = (of_Z ((r + 256) / 2), of_Z ((g + 256) / 2), of_Z ((b + 256) / 2))
  /\ (blendWithWhite c 0 = white <-> (254 <= r /\ 254 <= g /\ 254 <= b)%Z)
  /\ effectiveAlpha 0 = 0.5
  /\ effectiveAlpha 1 = 1
  /\ (forall alpha,
        (0 <=? alpha) = true -> (0.5 <=? effectiveAlpha alpha) = true).
Proof.
  intros Hr Hg Hb c. unfold c. rewrite !blendWithWhite_channels.
  split; [now rewrite !blend_channel_opaque|].
  split; [reflexivity|].
  split; [now rewrite !blend_channel_clear|].
  split; [|split; [reflexivity|split; [reflexivity|]];
           exact RoundingFacts.effectiveAlpha_lower].
  unfold white. split.
  - intros E. injection E as Er Eg Eb.
    apply blend_channel_clear_255 in Er, Eg, Eb; auto.
  - intros (Er & Eg & Eb).
    apply blend_channel_clear_255 in Er, Eg, Eb; trivial.
    now rewrite Er, Eg, Eb.
Qed.

End ColorFacts.

(** ** Objects: reading after writing *)

Module ObjectFacts.

Local Open Scope list_scope.

Lemma get_prop_app (k : string) (o1 o2 : object) :
  get_prop k (o1 ++ o2)
  = match get_prop k o2 with
    | Some v => Some v
    | None => get_prop k o1
    end.
Proof.
  induction o1 as [|[k1 v1] o1 IH]; simpl.
  - now destruct (get_prop k o2).
  - rewrite IH. now destruct (get_prop k o2).
Qed.

Lemma get_prop_None (k : string) (o : object) :
  has_prop k o = false -> get_prop k o = None.
Proof.
  induction o as [|[k1 v1] o IH]; simpl; [reflexivity|].
  intros H. apply Bool.orb_false_iff in H as [H1 H2].
  now rewrite (IH H2), H1.
Qed.

Lemma has_prop_update (k k' : string) (v : value) (o : object) :
  has_prop k' (update_prop k v o) = has_prop k' o.
Proof.
  induction o as [|[k1 v1] o IH]; simpl; [reflexivity|].
  rewrite IH. now destruct (String.eqb k k1).
Qed.

Lemma get_prop_update_same (k : string) (v : value) (o : object) :
  has_prop k o = true -> get_prop k (update_prop k v o) = Some v.
Proof.
  induction o as [|[k1 v1] o IH]; simpl; [discriminate|].
  destruct (has_prop k o) eqn:Ho.
  - intros _. destruct (String.eqb k k1); simpl; now rewrite (IH eq_refl).
  - rewrite Bool.orb_false_r. intros H. rewrite H. simpl.
    assert (Hn : get_prop k (update_prop k v o) = None).
    { apply get_prop_None. now rewrite has_prop_update. }
    now rewrite Hn, H.
Qed.

Lemma get_prop_update_other (k k' : string) (v : value) (o : object) :
  k' <> k -> get_prop k' (update_prop k v o) = get_prop k' o.
Proof.
  intros Hk. induction o as [|[k1 v1] o IH]; simpl; [reflexivity|].
  rewrite IH. destruct (String.eqb k k1) eqn:E; simpl; [|reflexivity].
  destruct (get_prop k' o); [reflexivity|].
  apply String.eqb_eq in E. subst k1.
  apply String.eqb_neq in Hk. now rewrite Hk.
Qed.

Lemma get_prop_insert_index (k' k : string) (i : N) (v : value) (o : object) :
  has_prop k o = false ->
  get_prop k' (insert_index i k v o)
  = if String.eqb k' k then Some v else get_prop k' o.
Proof.
  intros H. destruct (String.eqb k' k) eqn:E.
  - apply String.eqb_eq in E. subst k'.
    induction o as [|[k1 v1] o IH]; simpl in *.
    + now rewrite String.eqb_refl.
    + apply Bool.orb_false_iff in H as [H1 H2].
      destruct (array_index k1) as [j|]; [destruct (j <? i)%N|]; simpl;
        rewrite ?(IH H2), ?(get_prop_None _ _ H2), ?H1, ?String.eqb_refl;
        reflexivity.
  - clear H. induction o as [|[k1 v1] o IH]; simpl.
    + now rewrite E.
    + destruct (array_index k1) as [j|]; [destruct (j <? i)%N|]; simpl;
        rewrite ?IH, ?E; try reflexivity;
        destruct (get_prop k' o); try reflexivity;
        destruct (String.eqb k' k1); reflexivity.
Qed.

Lemma get_set_prop_same (k : string) (v : value) (o : object) :
  get_prop k (set_prop k v o) = Some v.
Proof.
  unfold set_prop. destruct (has_prop k o) eqn:H.
  - now apply get_prop_update_same.
  - destruct (array_index k).
    + rewrite (get_prop_insert_index _ _ _ _ _ H).
      now rewrite String.eqb_refl.
    + rewrite get_prop_app. simpl. now rewrite String.eqb_refl.
Qed.

Lemma get_set_prop_other (k k' : string) (v : value) (o : object) :
  k' <> k -> get_prop k' (set_prop k v o) = get_prop k' o.
Proof.
  intros Hk. unfold set_prop. destruct (has_prop k o) eqn:H.
  - now apply get_prop_update_other.
  - apply String.eqb_neq in Hk. destruct (array_index k).
    + now rewrite (get_prop_insert_index _ _ _ _ _ H), Hk.
    + rewrite get_prop_app. simpl. now rewrite Hk.
Qed.

Lemma get_set_prop (k k' : string) (v : value) (o : object) :
  get_prop k' (set_prop k v o)
  = if String.eqb k' k then Some v else get_prop k' o.
Proof.
  destruct (String.eqb k' k) eqn:E.
  - apply String.eqb_eq in E. subst. apply get_set_prop_same.
  - apply String.eqb_neq in E. now apply get_set_prop_other.
Qed.

(** Copying properties onto a target: a key of the source takes the
    source's value, any other key keeps the target's. *)
Lemma get_copy_list (k : string) (l target : object) :
  get_prop k (fold_left (fun acc kv => set_prop (fst kv) (snd kv) acc) l target)
  = match get_prop k l with
    | Some v => Some v
    | None => get_prop k target
    end.
Proof.
  revert target. induction l as [|[k1 v1] l IH]; intros target; simpl.
  - reflexivity.
  - rewrite IH. destruct (get_prop k l); [reflexivity|].
    rewrite get_set_prop. now destruct (String.eqb k k1).
Qed.

Lemma get_copy_props (k : string) (target : object) (source : value) :
  get_prop k (copy_props target source)
  = match get_prop k (own_props source) with
    | Some v => Some v
    | None => get_prop k target
    end.
Proof. apply get_copy_list. Qed.

(** [{ ...o, ...v }[k]] *)
Lemma prop_spread (k : string) (o : object) (v : value) :
  prop k (spread [VObj o; v])
  = match get_prop k (own_props v) with
    | Some w => w
    | None => prop k o
    end.
Proof.
  unfold prop, spread. simpl. rewrite !get_copy_props. simpl.
  destruct (get_prop k (own_props v)); [reflexivity|].
  now destruct (get_prop k o).
Qed.

End ObjectFacts.

(** ** Numbers that are not numbers

    NaN goes through every arithmetic operator and fails every
    comparison. *)

Module NaNFacts.

Local Open Scope float_scope.

Lemma SFcompare_refl (x : spec_float) :
  x <> S754_nan -> SFcompare x x = Some Eq.
Proof.
  destruct x as [s|s| |s m e]; simpl; try reflexivity.
  - now destruct s.
  - intros H. now elim H.
  - intros _. rewrite Z.compare_refl, Pos.compare_cont_spec, Pos.compare_refl.
    now destruct s.
Qed.

Lemma is_nan_eq (x : float) : is_nan x = true -> x = nan.
Proof.
  unfold is_nan. rewrite Bool.negb_true_iff, eqb_spec. unfold SFeqb.
  intros H. apply Prim2SF_inj. change (Prim2SF nan) with S754_nan.
  destruct (Prim2SF x) as [s|s| |s m e] eqn:E; try reflexivity;
    rewrite SFcompare_refl in H by discriminate; discriminate H.
Qed.

Lemma mul_nan_l (x : float) : nan * x = nan.
Proof.
  apply Prim2SF_inj. rewrite mul_spec. change (Prim2SF nan) with S754_nan.
  reflexivity.
Qed.

Lemma mul_nan_r (x : float) : x * nan = nan.
Proof.
  apply Prim2SF_inj. rewrite mul_spec. change (Prim2SF nan) with S754_nan.
  unfold SF64mul, SFmul. now destruct (Prim2SF x).
Qed.

Lemma add_nan_l (x : float) : nan + x = nan.
Proof.
  apply Prim2SF_inj. rewrite add_spec. change (Prim2SF nan) with S754_nan.
  reflexivity.
Qed.

Lemma add_nan_r (x : float) : x + nan = nan.
Proof.
  apply Prim2SF_inj. rewrite add_spec. change (Prim2SF nan) with S754_nan.
  unfold SF64add, SFadd. now destruct (Prim2SF x).
Qed.

Lemma sub_nan_l (x : float) : nan - x = nan.
Proof.
  apply Prim2SF_inj. rewrite sub_spec. change (Prim2SF nan) with S754_nan.
  reflexivity.
Qed.

Lemma sub_nan_r (x : float) : x - nan = nan.
Proof.
  apply Prim2SF_inj. rewrite sub_spec. change (Prim2SF nan) with S754_nan.
  unfold SF64sub, SFsub. now destruct (Prim2SF x).
Qed.

Lemma Math_max_nan_r (x : float) : Math_max x nan = nan.
Proof.
  unfold Math_max. change (is_nan nan) with true.
  now rewrite Bool.orb_true_r.
Qed.

Lemma Math_min_nan_r (x : float) : Math_min x nan = nan.
Proof.
  unfold Math_min. change (is_nan nan) with true.
  now rewrite Bool.orb_true_r.
Qed.

End NaNFacts.

(** ** The colour helpers at their edges *)

Section ColorEdgeFacts.

Local Open Scope float_scope.
Import NaNFacts.

Variable Math_pow : float -> float -> float.

Lemma hue2rgb_nan (p q : float) : hue2rgb p q nan = p.
Proof. reflexivity. Qed.

Lemma percent_values_spec (n : Z) :
  (0 <= n <= 100)%Z -> In n percent_values.
Proof.
  intros H. unfold percent_values. apply in_map_iff.
  exists (Z.to_nat n). split; [lia|]. apply in_seq. lia.
Qed.

Lemma grey_check_all :
  forallb (fun s => forallb (grey_check s) percent_values) percent_values
  = true.
Proof. vm_compute. reflexivity. Qed.

(** X2. A hue that is not a number (an absent [hue] field) makes no
    channel NaN by itself: for a saturation and a lightness that are
    whole percentages from 0 to 100, [hslToRgb(NaN, s, l)] is a grey,
    its three channels one and the same whole number from 0 to 255, and
    no lighter than [Math.round(l / 100 * 255)], the grey of that
    lightness with no saturation. *)
Theorem hslToRgb_nan_hue (s l : Z) :
  (0 <= s <= 100)%Z -> (0 <= l <= 100)%Z ->
  exists c : float,
    hslToRgb nan (of_Z s) (of_Z l) = (c, c, c)
    /\ (0 <=? c) = true /\ (c <=? 255) = true
    /\ Math_round c = c
    /\ (c <=? Math_round (of_Z l / 100 * 255)) = true.
Proof.
  intros Hs Hl. pose proof grey_check_all as H.
  rewrite forallb_forall in H.
  specialize (H s (percent_values_spec s Hs)).
  rewrite forallb_forall in H.
  specialize (H l (percent_values_spec l Hl)).
  unfold grey_check, is_channel in H.
  destruct (hslToRgb nan (of_Z s) (of_Z l)) as [[r g] b].
  apply Bool.andb_true_iff in H as [H H4].
  apply Bool.andb_true_iff in H as [H H3].
  apply Bool.andb_true_iff in H as [H1 H2].
  apply Bool.andb_true_iff in H3 as [H3 H5].
  apply Bool.andb_true_iff in H3 as [H3 H6].
  apply Leibniz.eqb_spec in H1, H2, H5.
  subst. exists b. repeat split; assumption.
Qed.

Lemma linearize_nan :
  Math_pow nan 2.4 = nan -> linearize Math_pow nan = nan.
Proof. intros H. exact H. Qed.

Lemma getLuminance_nan (r g b : float) :
  Math_pow nan 2.4 = nan ->
  is_nan r || is_nan g || is_nan b = true ->
  getLuminance Math_pow (r, g, b) = nan.
Proof.
  intros Hpow H. unfold getLuminance.
  apply Bool.orb_true_iff in H as [H|H];
    [apply Bool.orb_true_iff in H as [H|H]|];
    apply is_nan_eq in H; subst; rewrite (linearize_nan Hpow);
    repeat first [rewrite mul_nan_r | rewrite add_nan_l | rewrite add_nan_r];
    reflexivity.
Qed.

Lemma contrast_nan (r g b : float) :
  Math_pow nan 2.4 = nan ->
  is_nan r || is_nan g || is_nan b = true ->
  getLuminance Math_pow (r, g, b) = nan
  /\ getContrastRatio Math_pow black (r, g, b) = nan
  /\ getContrastRatio Math_pow white (r, g, b) = nan
  /\ getOptimalTextColor Math_pow (r, g, b) = "#ffffff"%string.
Proof.
  intros Hpow H. pose proof (getLuminance_nan r g b Hpow H) as L.
  assert (C : forall c, getContrastRatio Math_pow c (r, g, b) = nan).
  { intros c. unfold getContrastRatio.
    now rewrite L, Math_max_nan_r, Math_min_nan_r. }
  split; [exact L|]. split; [apply C|]. split; [apply C|].
  unfold getOptimalTextColor. now rewrite !C.
Qed.

(** X3. A background with a channel that is not a number gets white
    text: with [Math.pow(NaN, 2.4)] NaN, as the language has it, the
    luminance and both contrast ratios are NaN, the comparison
    [blackContrast >= whiteContrast] fails, and [getOptimalTextColor]
    returns ["#ffffff"]. *)
Theorem getOptimalTextColor_nan (r g b : float) :
  Math_pow nan 2.4 = nan ->
  is_nan r || is_nan g || is_nan b = true ->
  getLuminance Math_pow (r, g, b) = nan
  /\ getContrastRatio Math_pow black (r, g, b) = nan
  /\ getContrastRatio Math_pow white (r, g, b) = nan
  /\ getOptimalTextColor Math_pow (r, g, b) = "#ffffff"%string.
Proof. exact (contrast_nan r g b). Qed.

Lemma hue2rgb_nan_pq (t : float) : hue2rgb nan nan t = nan.
Proof.
  unfold hue2rgb. rewrite !add_nan_l.
  repeat match goal with |- context [if ?c then _ else _] => destruct c end;
    reflexivity.
Qed.

Lemma hslToRgb_nan_lig (h s : float) : hslToRgb h s nan = (nan, nan, nan).
Proof.
  unfold hslToRgb. change (nan / 100) with nan.
  change (nan <? 0.5) with false. change (2 * nan) with nan.
  destruct (s / 100 =? 0); [reflexivity|].
  rewrite add_nan_l, !sub_nan_l, !hue2rgb_nan_pq. reflexivity.
Qed.

Lemma hslToRgb_nan_sat (h l : float) : hslToRgb h nan l = (nan, nan, nan).
Proof.
  unfold hslToRgb. change (nan / 100) with nan.
  change (nan =? 0) with false. change (1 + nan) with nan.
  assert (Q : (if l / 100 <? 0.5 then l / 100 * nan
               else l / 100 + nan - l / 100 * nan) = nan).
  { destruct (l / 100 <? 0.5); [apply mul_nan_r|].
    now rewrite add_nan_r, sub_nan_l. }
  cbv zeta. rewrite Q, sub_nan_r, !hue2rgb_nan_pq. reflexivity.
Qed.

Lemma blendWithWhite_nan_alpha (c : rgb) :
  blendWithWhite c nan = (nan, nan, nan).
Proof.
  destruct c as [[r g] b]. unfold blendWithWhite.
  change (effectiveAlpha nan) with nan. cbv zeta.
  now rewrite !mul_nan_r, !add_nan_l.
Qed.

Lemma blendWithWhite_nan_rgb (alpha : float) :
  blendWithWhite (nan, nan, nan) alpha = (nan, nan, nan).
Proof.
  unfold blendWithWhite. cbv zeta. now rewrite !mul_nan_l, !add_nan_l.
Qed.

End ColorEdgeFacts.

(** ** Objects: the keys that copying keeps *)

Module FieldFacts.

Import ObjectFacts.
Local Open Scope list_scope.

Lemma has_prop_get (k : string) (o : object) :
  has_prop k o = true <-> get_prop k o <> None.
Proof.
  split.
  - induction o as [|[k1 v1] o IH]; simpl; [discriminate|].
    intros H. destruct (get_prop k o); [discriminate|].
    apply Bool.orb_true_iff in H as [H|H]; [now rewrite H|].
    now elim (IH H).
  - intros H. destruct (has_prop k o) eqn:E; [reflexivity|].
    now elim H; apply get_prop_None.
Qed.

Lemma has_prop_copy (k : string) (target : object) (source : value) :
  has_prop k target = true -> has_prop k (copy_props target source) = true.
Proof.
  rewrite !has_prop_get, get_copy_props.
  now destruct (get_prop k (own_props source)).
Qed.

Lemma has_prop_spread (k : string) (o : object) (v : value) :
  has_prop k o = true -> has_prop k (spread [VObj o; v]) = true.
Proof.
  intros H. unfold spread. simpl. apply has_prop_copy.
  apply has_prop_get. rewrite get_copy_props. simpl.
  apply has_prop_get in H. now destruct (get_prop k o).
Qed.

Lemma has_fields_default : has_fields default_values.
Proof.
  intros key H. simpl in H.
  repeat (destruct H as [<-|H]; [reflexivity|]). now elim H.
Qed.

Lemma has_fields_spread (o : object) (v : value) :
  has_fields o -> has_fields (spread [VObj o; v]).
Proof. intros H key Hk. apply has_prop_spread, H, Hk. Qed.


End FieldFacts.

(** ** The service *)

Section ServiceFacts.

Import ObjectFacts NaNFacts FieldFacts.
Local Open Scope list_scope.

Variable Math_pow : float -> float -> float.
Variable NumberToString : float -> string.
Variable StringToNumber : string -> float.
Variable JSON_parse : string -> parse_result.
Variable JSON_stringify : value -> N -> string.
Variable TypeError : value.
Variable setProperty_converts : bool.

Local Notation ToString := (ThemeService.ToString NumberToString).
Local Notation ToNumber := (ThemeService.ToNumber NumberToString StringToNumber).
Local Notation converts := (ThemeService.converts NumberToString).
Local Notation convertible := (ThemeService.convertible NumberToString).
Local Notation percent := (ThemeService.percent NumberToString).
Local Notation setProperty :=
  (ThemeService.setProperty NumberToString TypeError setProperty_converts).
Local Notation sidebarTextColor :=
  (ThemeService.sidebarTextColor Math_pow NumberToString StringToNumber).
Local Notation primaryColor := ThemeService.primaryColor.
Local Notation reload_ :=
  (ThemeService.reload_ Math_pow NumberToString StringToNumber
     TypeError setProperty_converts).
Local Notation apply :=
  (ThemeService.apply Math_pow NumberToString StringToNumber
     TypeError setProperty_converts).
Local Notation reset :=
  (ThemeService.reset Math_pow NumberToString StringToNumber
     TypeError setProperty_converts).
Local Notation _init :=
  (ThemeService._init Math_pow NumberToString StringToNumber JSON_parse
     TypeError setProperty_converts).
Local Notation elapse := (ThemeService.elapse JSON_stringify).
Local Notation step :=
  (ThemeService.step Math_pow NumberToString StringToNumber JSON_stringify
     TypeError setProperty_converts).
Local Notation run :=
  (ThemeService.run Math_pow NumberToString StringToNumber JSON_stringify
     TypeError setProperty_converts).
Local Notation alert_message := (ThemeService.alert_message NumberToString).
Local Notation parse_failed := (ThemeService.parse_failed NumberToString TypeError).
Local Notation read_failed := (ThemeService.read_failed TypeError).
Local Notation read_log := (ThemeService.read_log TypeError).
Local Notation parse_log :=
  (ThemeService.parse_log NumberToString JSON_parse TypeError).
Local Notation quiet_effect := ThemeService.quiet_effect.
Local Notation error_code := ThemeService.error_code.
Local Notation parsed_text := ThemeService.parsed_text.
Local Notation throws := ThemeService.throws.
Local Notation and_then := ThemeService.and_then.
Local Notation render_effect := ThemeService.render_effect.
Local Notation save_ := ThemeService.save_.
Local Notation get := ThemeService.get.
Local Notation writes := ThemeService.writes.
Local Notation alerts := ThemeService.alerts.
Local Notation store_after := ThemeService.store_after.
Local Notation one_pending := ThemeService.one_pending.
Local Notation read_text := ThemeService.read_text.
Local Notation Apply := ThemeService.Apply.
Local Notation Reset := ThemeService.Reset.
Local Notation Elapse := ThemeService.Elapse.

(** The text [commit_save_] writes for a descriptor. *)
Local Notation saved s := (JSON_stringify (VObj [("colors", VObj s)]) 5).

(** *** Calls that throw *)

Lemma throws_app (es1 es2 : list effect) :
  throws (es1 ++ es2) = throws es1 || throws es2.
Proof. apply existsb_app. Qed.

Lemma and_then_returns (es k : list effect) :
  throws es = false -> and_then es k = es ++ k.
Proof. intros H. unfold ThemeService.and_then. now rewrite H. Qed.

Lemma and_then_throws (es k : list effect) :
  throws es = true -> and_then es k = es.
Proof. intros H. unfold ThemeService.and_then. now rewrite H. Qed.

Lemma throws_and_then (es k : list effect) :
  throws (and_then es k) = throws es || throws k.
Proof.
  unfold ThemeService.and_then. destruct (throws es) eqn:E.
  - now rewrite E.
  - now rewrite throws_app, E.
Qed.

(** *** Conversions *)

Lemma ToNumber_converts (v : value) :
  match ToNumber v with Some _ => true | None => false end = converts v.
Proof.
  unfold ThemeService.converts.
  destruct v as [| |[|]|n|s|l|o]; try reflexivity.
  - change (ToNumber (VArr l)) with (option_map StringToNumber (ToString (VArr l))).
    now destruct (ToString (VArr l)).
  - change (ToNumber (VObj o)) with (option_map StringToNumber (ToString (VObj o))).
    now destruct (ToString (VObj o)).
Qed.

Lemma converts_ToString (v : value) :
  converts v = true -> exists t, ToString v = Some t.
Proof.
  unfold ThemeService.converts. destruct (ToString v) as [t|]; [|discriminate].
  intros _. now exists t.
Qed.

Lemma converts_ToNumber (v : value) :
  converts v = true -> exists n, ToNumber v = Some n.
Proof.
  rewrite <- ToNumber_converts. destruct (ToNumber v) as [n|]; [|discriminate].
  intros _. now exists n.
Qed.

Lemma ToNumber_Some_converts (v : value) (n : float) :
  ToNumber v = Some n -> converts v = true.
Proof. intros H. now rewrite <- ToNumber_converts, H. Qed.

Lemma converts_percent (v : value) :
  converts v = true -> exists t, percent v = Some (VStr t).
Proof.
  intros H. apply converts_ToString in H as [t H].
  unfold ThemeService.percent. rewrite H. now eexists.
Qed.

Lemma percent_None (v : value) :
  converts v = false -> percent v = None.
Proof.
  unfold ThemeService.converts, ThemeService.percent.
  now destruct (ToString v).
Qed.

Lemma setProperty_returns (name : string) (v : value) :
  converts v = true -> setProperty name v = [SetProperty name v].
Proof.
  unfold ThemeService.setProperty, ThemeService.converts.
  destruct setProperty_converts; [|reflexivity].
  now destruct (ToString v).
Qed.

Lemma setProperty_string (name t : string) :
  setProperty name (VStr t) = [SetProperty name (VStr t)].
Proof. now apply setProperty_returns. Qed.

Lemma setProperty_primaryColor (name : string) (s : object) :
  setProperty name (primaryColor s) = [SetProperty name (primaryColor s)].
Proof.
  apply setProperty_returns. unfold ThemeService.primaryColor.
  now destruct (ToBoolean (prop "light_text" s)).
Qed.

(** *** The render pass *)

(** The render pass of a descriptor whose four numeric fields all have
    a conversion returns, and issues these effects. *)
Lemma reload_convertible (s : object) :
  convertible s = true ->
  exists sat lig c,
    percent (prop "sat" s) = Some (VStr sat)
    /\ percent (prop "lig" s) = Some (VStr lig)
    /\ sidebarTextColor s = Some c
    /\ reload_ s
       = [SetProperty "--primary-hue" (prop "hue" s);
          SetProperty "--primary-saturation" (VStr sat);
          SetProperty "--primary-lightness" (VStr lig);
          SetProperty "--primary-alpha" (prop "alpha" s);
          SetProperty "--primary-color" (primaryColor s);
          SetProperty "--window-sidebar-title-color" (VStr c);
          SetProperty "--window-sidebar-item-color" (VStr c);
          ConsoleLog [VStr "[ThemeService] Sidebar text colors set to:"; VStr c];
          SendBroadcast "themeChanged"
            (VObj [("palette",
                    VObj [("primaryHue", prop "hue" s);
                          ("primarySaturation", VStr sat);
                          ("primaryLightness", VStr lig);
                          ("primaryAlpha", prop "alpha" s);
                          ("primaryColor", primaryColor s)])])
            (VObj [("sendToNewAppInstances", VBool true)])].
Proof.
  unfold ThemeService.convertible. intros H.
  apply Bool.andb_true_iff in H as [H Ha].
  apply Bool.andb_true_iff in H as [H Hl].
  apply Bool.andb_true_iff in H as [Hh Hs].
  destruct (converts_percent _ Hs) as [sat Es].
  destruct (converts_percent _ Hl) as [lig El].
  destruct (converts_ToNumber _ Hh) as [nh Nh].
  destruct (converts_ToNumber _ Hs) as [ns Ns].
  destruct (converts_ToNumber _ Hl) as [nl Nl].
  destruct (converts_ToNumber _ Ha) as [na Na].
  exists sat, lig. eexists.
  split; [exact Es|]. split; [exact El|].
  split.
  { unfold ThemeService.sidebarTextColor. rewrite Nh, Ns, Nl, Na. reflexivity. }
  unfold ThemeService.reload_, ThemeService.sidebarTextColor.
  rewrite Es, El, Nh, Ns, Nl, Na.
  rewrite (setProperty_returns _ _ Hh), (setProperty_returns _ _ Ha).
  rewrite !setProperty_string, setProperty_primaryColor.
  reflexivity.
Qed.

Lemma reload_returns (s : object) :
  convertible s = true -> throws (reload_ s) = false.
Proof.
  intros H. destruct (reload_convertible s H) as (sat & lig & c & _ & _ & _ & E).
  now rewrite E.
Qed.

Lemma reload_default_returns : throws (reload_ default_values) = false.
Proof. now apply reload_returns. Qed.

(** The render pass reads the descriptor through its fields only. *)
Lemma reload_ext (s1 s2 : object) :
  (forall key, prop key s1 = prop key s2) -> reload_ s1 = reload_ s2.
Proof.
  intros H. unfold ThemeService.reload_, ThemeService.sidebarTextColor,
    ThemeService.primaryColor.
  now rewrite !H.
Qed.

Lemma render_and_then (es k : list effect) :
  forallb render_effect es = true -> forallb render_effect k = true ->
  forallb render_effect (and_then es k) = true.
Proof.
  intros H1 H2. unfold ThemeService.and_then.
  destruct (throws es); [exact H1|].
  rewrite forallb_app, H1, H2. reflexivity.
Qed.

Lemma render_setProperty (name : string) (v : value) :
  forallb render_effect (setProperty name v) = true.
Proof.
  unfold ThemeService.setProperty.
  destruct setProperty_converts; [|reflexivity].
  now destruct (ToString v).
Qed.

(** All a render pass does is set properties, log, broadcast and,
    possibly, throw. *)
Lemma render_reload (s : object) :
  forallb render_effect (reload_ s) = true.
Proof.
  unfold ThemeService.reload_.
  apply render_and_then; [apply render_setProperty|].
  destruct (percent (prop "sat" s)) as [sat|]; [|reflexivity].
  apply render_and_then; [apply render_setProperty|].
  destruct (percent (prop "lig" s)) as [lig|]; [|reflexivity].
  repeat (apply render_and_then; [apply render_setProperty|]).
  apply render_and_then; [|reflexivity].
  destruct (sidebarTextColor s) as [c|]; [|reflexivity].
  repeat (apply render_and_then; [apply render_setProperty|]).
  reflexivity.
Qed.

Lemma render_quiet (es : list effect) :
  forallb render_effect es = true -> forallb quiet_effect es = true.
Proof.
  induction es as [|e es IH]; [reflexivity|]. cbn [forallb].
  intros H. apply Bool.andb_true_iff in H as [He H].
  rewrite (IH H). now destruct e.
Qed.

Lemma quiet_and_then (es k : list effect) :
  forallb quiet_effect es = true -> forallb quiet_effect k = true ->
  forallb quiet_effect (and_then es k) = true.
Proof.
  intros H1 H2. unfold ThemeService.and_then.
  destruct (throws es); [exact H1|].
  rewrite forallb_app, H1, H2. reflexivity.
Qed.

Lemma writes_quiet (es : list effect) :
  forallb quiet_effect es = true -> writes es = [].
Proof.
  induction es as [|e es IH]; [reflexivity|]. cbn [forallb].
  intros H. apply Bool.andb_true_iff in H as [He H].
  cbn [ThemeService.writes flat_map]. fold (writes es). rewrite (IH H).
  now destruct e.
Qed.

Lemma store_after_quiet (es : list effect) (record : option string) :
  forallb quiet_effect es = true -> store_after es record = record.
Proof.
  revert record. induction es as [|e es IH]; intros record; [reflexivity|].
  cbn [forallb]. intros H. apply Bool.andb_true_iff in H as [He H].
  unfold ThemeService.store_after. cbn [fold_left].
  fold (store_after es (ThemeService.serve record e)).
  rewrite (IH _ H). now destruct e.
Qed.

Lemma writes_render (es : list effect) :
  forallb render_effect es = true -> writes es = [].
Proof. intros H. now apply writes_quiet, render_quiet. Qed.

Lemma store_after_render (es : list effect) (record : option string) :
  forallb render_effect es = true -> store_after es record = record.
Proof. intros H. now apply store_after_quiet, render_quiet. Qed.

Lemma alerts_render (es : list effect) :
  forallb render_effect es = true -> alerts es = [].
Proof.
  induction es as [|e es IH]; [reflexivity|]. cbn [forallb].
  intros H. apply Bool.andb_true_iff in H as [He H].
  cbn [ThemeService.alerts flat_map]. fold (alerts es). rewrite (IH H).
  now destruct e.
Qed.

Lemma In_render (es : list effect) (e : effect) :
  forallb render_effect es = true -> In e es -> render_effect e = true.
Proof. intros H. now apply forallb_forall. Qed.

Lemma writes_app (es1 es2 : list effect) :
  writes (es1 ++ es2) = writes es1 ++ writes es2.
Proof. apply flat_map_app. Qed.

Lemma alerts_app (es1 es2 : list effect) :
  alerts (es1 ++ es2) = alerts es1 ++ alerts es2.
Proof. apply flat_map_app. Qed.

Lemma store_after_app (es1 es2 : list effect) (record : option string) :
  store_after (es1 ++ es2) record = store_after es2 (store_after es1 record).
Proof. apply fold_left_app. Qed.

Lemma writes_reload (s : object) : writes (reload_ s) = [].
Proof. apply writes_render, render_reload. Qed.

Lemma alerts_reload (s : object) : alerts (reload_ s) = [].
Proof. apply alerts_render, render_reload. Qed.

Lemma store_after_reload (s : object) (record : option string) :
  store_after (reload_ s) record = record.
Proof. apply store_after_render, render_reload. Qed.

Lemma no_timeout_in_reload (s : object) (h : positive) (d : N) :
  ~ In (SetTimeout h d) (reload_ s).
Proof.
  intros H. apply (In_render _ _ (render_reload s)) in H. discriminate H.
Qed.

Lemma no_clear_in_reload (s : object) (h : positive) :
  ~ In (ClearTimeout h) (reload_ s).
Proof.
  intros H. apply (In_render _ _ (render_reload s)) in H. discriminate H.
Qed.

Lemma writes_cleared (m : machine) : writes (ThemeService.cleared m) = [].
Proof. unfold ThemeService.cleared. now destruct (save_cooldown_ m). Qed.

Lemma store_after_cleared (m : machine) (record : option string) :
  store_after (ThemeService.cleared m) record = record.
Proof. unfold ThemeService.cleared. now destruct (save_cooldown_ m). Qed.

(** *** Timers *)

Lemma no_cooldown_no_timers (m : machine) :
  one_pending m -> save_cooldown_ m = None -> timers m = [].
Proof.
  intros Hm Hn. destruct (timers m) as [|[h d] ts] eqn:E; [reflexivity|].
  specialize (Hm h d). rewrite E in Hm.
  rewrite Hn in Hm. discriminate Hm. now left.
Qed.

Lemma clear_pending (m : machine) (h : positive) :
  one_pending m -> save_cooldown_ m = Some h ->
  ThemeService.clearTimeout h (timers m) = [].
Proof.
  intros Hm Hh. unfold one_pending in Hm. unfold ThemeService.clearTimeout.
  induction (timers m) as [|[h1 d1] ts IH]; simpl; [reflexivity|].
  assert (E : h1 = h).
  { specialize (Hm h1 d1 (or_introl eq_refl)). congruence. }
  subst h1. rewrite Pos.eqb_refl. simpl.
  apply IH. intros h2 d2 Hin. apply (Hm h2 d2). now right.
Qed.

Lemma save_timers (m : machine) :
  one_pending m ->
  timers (fst (save_ m))
  = [(next_handle m, (clock m + SAVE_COOLDOWN_TIME)%N)].
Proof.
  intros Hm. unfold ThemeService.save_.
  destruct (save_cooldown_ m) as [h|] eqn:E; simpl.
  - now rewrite (clear_pending m h Hm E).
  - now rewrite (no_cooldown_no_timers m Hm E).
Qed.

Lemma save_cooldown (m : machine) :
  save_cooldown_ (fst (save_ m)) = Some (next_handle m).
Proof.
  unfold ThemeService.save_. now destruct (save_cooldown_ m).
Qed.

Lemma one_pending_save (m : machine) :
  one_pending m -> one_pending (fst (save_ m)).
Proof.
  intros Hm h d. rewrite (save_timers m Hm), save_cooldown.
  intros [E|[]]. now inversion E.
Qed.

Lemma one_pending_set_state (s : object) (m : machine) :
  one_pending m -> one_pending (ThemeService.set_state s m).
Proof. intros Hm. exact Hm. Qed.

Lemma one_pending_elapse (dt : N) (m : machine) :
  one_pending m -> one_pending (fst (elapse dt m)).
Proof.
  intros Hm h d. simpl. intros Hin. apply filter_In in Hin as [Hin _].
  now apply (Hm h d).
Qed.

Lemma timers_init (r : fs_read_result) :
  timers (fst (_init r)) = [] /\ save_cooldown_ (fst (_init r)) = None.
Proof.
  unfold ThemeService._init.
  destruct r as [e|text|e|text];
    repeat match goal with
           | |- context [if ToBoolean (VStr ?t) then _ else _] =>
               destruct (ToBoolean (VStr t))
           | |- context [match JSON_parse ?t with _ => _ end] =>
               destruct (JSON_parse t)
           end; split; reflexivity.
Qed.

Lemma one_pending_init (r : fs_read_result) : one_pending (fst (_init r)).
Proof.
  intros h d. destruct (timers_init r) as [-> _]. intros [].
Qed.

(** *** apply and get *)

Lemma apply_returns (values : value) (m : machine) :
  throws (reload_ (spread [VObj (state m); values])) = false ->
  apply values m
  = (fst (save_ (ThemeService.set_state (spread [VObj (state m); values]) m)),
     reload_ (spread [VObj (state m); values])
       ++ snd (save_ (ThemeService.set_state (spread [VObj (state m); values]) m))).
Proof.
  intros H. unfold ThemeService.apply.
  cbn [state ThemeService.set_state]. rewrite H.
  now destruct (save_ _).
Qed.

(** An [apply] whose render pass throws has replaced the descriptor and
    done nothing else: [save_] is not reached. *)
Lemma apply_throws (values : value) (m : machine) :
  throws (reload_ (spread [VObj (state m); values])) = true ->
  apply values m
  = (ThemeService.set_state (spread [VObj (state m); values]) m,
     reload_ (spread [VObj (state m); values])).
Proof.
  intros H. unfold ThemeService.apply.
  cbn [state ThemeService.set_state]. now rewrite H.
Qed.

Lemma state_apply (values : value) (m : machine) :
  state (fst (apply values m)) = spread [VObj (state m); values].
Proof.
  destruct (throws (reload_ (spread [VObj (state m); values]))) eqn:E.
  - now rewrite (apply_throws values m E).
  - rewrite (apply_returns values m E). cbn [fst].
    unfold ThemeService.save_. now destruct (save_cooldown_ _).
Qed.

Lemma one_pending_step (c : ThemeService.call) (m : machine) :
  one_pending m -> one_pending (fst (step c m)).
Proof.
  intros Hm. destruct c as [values| |dt]; cbn [ThemeService.step].
  - destruct (throws (reload_ (spread [VObj (state m); values]))) eqn:E.
    + rewrite (apply_throws values m E). exact Hm.
    + rewrite (apply_returns values m E). cbn [fst].
      apply one_pending_save, one_pending_set_state, Hm.
  - exact Hm.
  - now apply one_pending_elapse.
Qed.

(** Every state the page reaches after [_init] has at most the one
    pending timeout. *)
Lemma one_pending_run (cs : list ThemeService.call) (m : machine) :
  one_pending m -> one_pending (fst (run cs m)).
Proof.
  revert m. induction cs as [|c cs IH]; intros m Hm; simpl; [exact Hm|].
  pose proof (one_pending_step c m Hm) as H1.
  destruct (step c m) as [m1 e1]. simpl in H1.
  pose proof (IH m1 H1) as H2.
  destruct (run cs m1) as [m2 e2]. exact H2.
Qed.

(** Merge semantics: a key of [values] reads as [values] has it, any
    other key as before. *)
Lemma get_apply (key : string) (values : value) (m : machine) :
  get key (fst (apply values m))
  = match get_prop key (own_props values) with
    | Some v => v
    | None => get key m
    end.
Proof.
  unfold ThemeService.get. rewrite state_apply. apply prop_spread.
Qed.

(** C5. Whatever the descriptor was, after [apply({hue: 120})]
    [get('hue')] is 120 and [get] of every other key is what it was
    before. *)
Theorem apply_hue_roundtrip (m : machine) :
  let m' := fst (apply (VObj [("hue", VNum 120)]) m) in
  get "hue" m' = VNum 120
  /\ forall key, key <> "hue" -> get key m' = get key m.
Proof.
  intros m'. unfold m'. split.
  - rewrite get_apply. reflexivity.
  - intros key Hkey. rewrite get_apply. simpl.
    apply String.eqb_neq in Hkey. now rewrite Hkey.
Qed.

(** *** reset *)

Lemma reset_eq (m : machine) :
  reset m
  = ({| state := default_values;
        save_cooldown_ := save_cooldown_ m;
        clock := clock m;
        timers := timers m;
        next_handle := next_handle m |},
     reload_ default_values ++ [FsDelete PUTER_THEME_DATA_FILENAME]).
Proof.
  unfold ThemeService.reset. cbn [state ThemeService.set_state].
  now rewrite (and_then_returns _ _ reload_default_returns).
Qed.

(** C4. After [reset()] the descriptor is [default_values], so [get] of
    every field is the default and [get('alpha')] is 0.8; [reset] runs
    the render pass on the defaults and then issues the deletion of the
    persisted record itself: it sets no timeout and leaves
    [save_cooldown_] and the pending timeouts as they were. *)
Theorem reset_restores_defaults (m : machine) :
  let '(m', es) := reset m in
  state m' = default_values
  /\ get "alpha" m' = VNum 0.8
  /\ (forall key, get key m' = prop key default_values)
  /\ es = reload_ default_values ++ [FsDelete PUTER_THEME_DATA_FILENAME]
  /\ (forall h d, ~ In (SetTimeout h d) es)
  /\ save_cooldown_ m' = save_cooldown_ m
  /\ timers m' = timers m.
Proof.
  rewrite reset_eq.
  repeat (split; [reflexivity|]).
  split; [|split; reflexivity].
  intros h d H. apply in_app_or in H as [H|[H|[]]].
  - exact (no_timeout_in_reload _ _ _ H).
  - discriminate H.
Qed.

(** *** The debounced save *)

Lemma apply_one_pending (values : value) (m : machine) :
  one_pending m ->
  throws (reload_ (spread [VObj (state m); values])) = false ->
  apply values m
  = ({| state := spread [VObj (state m); values];
        save_cooldown_ := Some (next_handle m);
        clock := clock m;
        timers := [(next_handle m, (clock m + SAVE_COOLDOWN_TIME)%N)];
        next_handle := Pos.succ (next_handle m) |},
     reload_ (spread [VObj (state m); values])
       ++ ThemeService.cleared m ++ [SetTimeout (next_handle m) SAVE_COOLDOWN_TIME]).
Proof.
  intros Hm Hr. rewrite (apply_returns values m Hr).
  unfold ThemeService.save_, ThemeService.cleared.
  cbn [state save_cooldown_ clock timers next_handle ThemeService.set_state].
  destruct (save_cooldown_ m) as [h|] eqn:E.
  - now rewrite (clear_pending m h Hm E).
  - now rewrite (no_cooldown_no_timers m Hm E).
Qed.

Lemma elapse_early (dt : N) (m : machine) (h : positive) (due : N) :
  timers m = [(h, due)] -> (clock m + dt < due)%N ->
  elapse dt m
  = ({| state := state m;
        save_cooldown_ := save_cooldown_ m;
        clock := (clock m + dt)%N;
        timers := [(h, due)];
        next_handle := next_handle m |}, []).
Proof.
  intros Ht Hlt. unfold ThemeService.elapse. rewrite Ht.
  cbn [filter flat_map]. unfold ThemeService.is_due. cbn [snd].
  apply N.leb_gt in Hlt. now rewrite Hlt.
Qed.

Lemma elapse_due (dt : N) (m : machine) (h : positive) (due : N) :
  timers m = [(h, due)] -> (due <= clock m + dt)%N ->
  elapse dt m
  = ({| state := state m;
        save_cooldown_ := save_cooldown_ m;
        clock := (clock m + dt)%N;
        timers := [];
        next_handle := next_handle m |},
     [FsWrite PUTER_THEME_DATA_FILENAME (saved (state m))]).
Proof.
  intros Ht Hle. unfold ThemeService.elapse. rewrite Ht.
  cbn [filter flat_map]. unfold ThemeService.is_due. cbn [snd].
  apply N.leb_le in Hle. now rewrite Hle.
Qed.


(** *** reset while a save is pending *)

(** [apply] leaves the clock and the store as they were. *)
Lemma apply_quiet (values : value) (m : machine) :
  clock (fst (apply values m)) = clock m
  /\ forall record, store_after (snd (apply values m)) record = record.
Proof.
  destruct (throws (reload_ (spread [VObj (state m); values]))) eqn:E.
  - rewrite (apply_throws values m E). split; [reflexivity|].
    intros record. apply store_after_reload.
  - rewrite (apply_returns values m E). cbn [fst snd].
    unfold ThemeService.save_.
    cbn [state save_cooldown_ clock timers next_handle ThemeService.set_state].
    destruct (save_cooldown_ m); cbn [fst snd clock];
      (split; [reflexivity|]); intros record;
      now rewrite store_after_app, store_after_reload.
Qed.

(** With one save pending, [reset] before it is due and then the time
    up to its due time. *)
Lemma reset_pending
    (m1 : machine) (h : positive) (due : N) (dt1 dt2 : N) :
  timers m1 = [(h, due)] ->
  (clock m1 + dt1 < due)%N ->
  (due <= clock m1 + dt1 + dt2)%N ->
  let '(m2, e2) := elapse dt1 m1 in
  let '(m3, e3) := reset m2 in
  let '(m4, e4) := elapse dt2 m3 in
  e2 = []
  /\ timers m2 = [(h, due)]
  /\ timers m3 = timers m2
  /\ (forall h', ~ In (ClearTimeout h') e3)
  /\ In (FsDelete PUTER_THEME_DATA_FILENAME) e3
  /\ e4 = [FsWrite PUTER_THEME_DATA_FILENAME (saved default_values)]
  /\ forall record,
       store_after (e3) record = None
       /\ store_after (e3 ++ e4) record = Some (saved default_values).
Proof.
  intros Ht Hlt Hle.
  rewrite (elapse_early dt1 m1 h due Ht Hlt).
  set (m2 := {| state := state m1;
                save_cooldown_ := save_cooldown_ m1;
                clock := (clock m1 + dt1)%N;
                timers := [(h, due)];
                next_handle := next_handle m1 |}).
  rewrite (reset_eq m2).
  set (m3 := {| state := default_values;
                save_cooldown_ := save_cooldown_ m2;
                clock := clock m2;
                timers := timers m2;
                next_handle := next_handle m2 |}).
  rewrite (elapse_due dt2 m3 h due eq_refl) by exact Hle.
  split; [reflexivity|]. split; [reflexivity|]. split; [reflexivity|].
  split.
  { intros h' H. apply in_app_or in H as [H|[H|[]]].
    - exact (no_clear_in_reload _ _ H).
    - discriminate H. }
  split; [apply in_or_app; right; now left|].
  split; [reflexivity|].
  intros record.
  rewrite !store_after_app, !store_after_reload.
  split; reflexivity.
Qed.

(** C3. [apply], then [reset] while a save is pending, before its
    delay has run out. An [apply] whose render pass returns leaves its
    save pending, due a cooldown later. Whenever a save is pending after
    [apply]: [reset] clears no timeout, so the timeout is still pending
    after it; [reset] issues the deletion, at which point there is no
    record; when the delay runs out the timeout fires and writes the
    serialization of the descriptor of that moment, the defaults, so the
    record exists again. *)
Theorem reset_leaves_save_pending
    (m : machine) (values : value) (dt1 dt2 : N) :
  one_pending m ->
  let '(m1, e1) := apply values m in
  (throws (reload_ (spread [VObj (state m); values])) = false ->
   timers m1 = [(next_handle m, (clock m + SAVE_COOLDOWN_TIME)%N)])
  /\ forall h due,
       timers m1 = [(h, due)] ->
       (clock m + dt1 < due)%N ->
       (due <= clock m + dt1 + dt2)%N ->
       let '(m2, e2) := elapse dt1 m1 in
       let '(m3, e3) := reset m2 in
       let '(m4, e4) := elapse dt2 m3 in
       timers m2 = [(h, due)]
       /\ timers m3 = timers m2
       /\ (forall h', ~ In (ClearTimeout h') e3)
       /\ In (FsDelete PUTER_THEME_DATA_FILENAME) e3
       /\ e4 = [FsWrite PUTER_THEME_DATA_FILENAME (saved default_values)]
       /\ forall record,
            store_after (e1 ++ e2 ++ e3) record = None
            /\ store_after (e1 ++ e2 ++ e3 ++ e4) record
               = Some (saved default_values).
Proof.
  intros Hm.
  pose proof (apply_quiet values m) as [Hc Hq].
  assert (Hs : throws (reload_ (spread [VObj (state m); values])) = false ->
               timers (fst (apply values m))
               = [(next_handle m, (clock m + SAVE_COOLDOWN_TIME)%N)]).
  { intros Hr. now rewrite (apply_one_pending values m Hm Hr). }
  destruct (apply values m) as [m1 e1]. cbn [fst snd] in *.
  split; [exact Hs|].
  intros h due Ht Hlt Hle. rewrite <- Hc in Hlt, Hle.
  pose proof (reset_pending m1 h due dt1 dt2 Ht Hlt Hle) as H.
  destruct (elapse dt1 m1) as [m2 e2].
  destruct (reset m2) as [m3 e3].
  destruct (elapse dt2 m3) as [m4 e4].
  destruct H as (-> & H1 & H2 & H3 & H4 & H5 & H6).
  repeat (split; [assumption|]).
  intros record. cbn [app].
  rewrite !store_after_app, Hq. rewrite <- store_after_app. apply H6.
Qed.

(** *** _init *)

Local Notation started s :=
  {| state := s; save_cooldown_ := None; clock := 0%N;
     timers := []; next_handle := 1%positive |}.

Local Notation parse_alert message :=
  (VObj [("title", VStr "Error loading theme data");
         ("message",
          VStr ("Could not parse " ++ dquote ++ "~/.__puter_gui.json" ++ dquote
                  ++ ": " ++ message))]).

Lemma nonempty_truthy (text : string) :
  text <> "" -> ToBoolean (VStr text) = true.
Proof.
  intros H. simpl. apply String.eqb_neq in H. now rewrite H.
Qed.

Lemma parse_failed_returns (e : object) (message : string) :
  ToString (prop "message" e) = Some message ->
  parse_failed e = [ConsoleError [VObj e]; UIAlert (parse_alert message)].
Proof.
  intros H. unfold ThemeService.parse_failed, ThemeService.alert_message.
  now rewrite H.
Qed.

Lemma parse_failed_throws (e : object) :
  ToString (prop "message" e) = None ->
  parse_failed e = [ConsoleError [VObj e]; Throw TypeError].
Proof.
  intros H. unfold ThemeService.parse_failed, ThemeService.alert_message.
  now rewrite H.
Qed.

(** [_init] is the read, what the two [catch] blocks issue, and the
    render pass of the descriptor it settled on, as far as nothing
    throws. *)
Lemma init_effects (r : fs_read_result) :
  snd (_init r)
  = and_then [FsRead PUTER_THEME_DATA_FILENAME]
      (and_then (read_log r)
         (and_then (parse_log r) (reload_ (state (fst (_init r)))))).
Proof.
  unfold ThemeService._init, ThemeService.parse_log.
  destruct r as [e|text|e|text]; cbn [ThemeService.parsed_text ThemeService.read_log];
    repeat match goal with
           | |- context [if ToBoolean (VStr ?t) then _ else _] =>
               destruct (ToBoolean (VStr t))
           | |- context [match JSON_parse ?t with _ => _ end] =>
               destruct (JSON_parse t)
           end; reflexivity.
Qed.

Lemma init_text (r : fs_read_result) (text : string) :
  read_text r = Some text -> text <> "" ->
  _init r
  = match JSON_parse text with
    | ParseOk d =>
        let s := if ToBoolean d && ToBoolean (member d "colors")
                 then spread [VObj default_values; member d "colors"]
                 else default_values in
        (started s, FsRead PUTER_THEME_DATA_FILENAME :: reload_ s)
    | ParseThrows e =>
        (started default_values,
         FsRead PUTER_THEME_DATA_FILENAME
           :: and_then (parse_failed e) (reload_ default_values))
    end.
Proof.
  intros Hr Ht. apply nonempty_truthy in Ht.
  unfold ThemeService._init.
  destruct r as [e|t|e|t]; simpl in Hr; try discriminate;
    injection Hr as ->; rewrite Ht;
    (destruct (JSON_parse text) as [d|e]; [reflexivity|]);
    cbn [throws existsb orb]; destruct (throws (parse_failed e)); reflexivity.
Qed.

Lemma init_rejected (e : value) :
  _init (ReadRejects e)
  = (started default_values,
     FsRead PUTER_THEME_DATA_FILENAME
       :: and_then (read_failed e) (reload_ default_values)).
Proof.
  unfold ThemeService._init.
  destruct (throws (read_failed e)); reflexivity.
Qed.

(** Empty text is falsy: it is not parsed, and nothing is reported. *)
Lemma init_empty_text (r : fs_read_result) :
  read_text r = Some "" ->
  _init r
  = (started default_values,
     FsRead PUTER_THEME_DATA_FILENAME :: reload_ default_values).
Proof.
  destruct r as [e|t|e|t]; simpl; try discriminate;
    intros H; injection H as ->; reflexivity.
Qed.

(** C7, as the code has it. At [_init], (1) text that is read, is not
    empty and that [JSON.parse] rejects with an error whose message has
    a string conversion is dropped: the descriptor is the defaults, the
    error is logged, exactly one alert is raised, whose message ends
    with the error's message, and the render pass runs on the defaults
    and returns; (2) a read rejected with code [subject_does_not_exist]
    gives the defaults and the render pass and nothing else, no log and
    no alert; (3) a read rejected with an error of any other code is
    logged, and gives the defaults and the render pass with no alert;
    (4) text that is read and is empty is not parsed: the defaults and
    the render pass, no log and no alert. *)
Theorem init_failures (r : fs_read_result) :
  (forall text e message,
      read_text r = Some text -> text <> "" ->
      JSON_parse text = ParseThrows e ->
      ToString (prop "message" e) = Some message ->
      let '(m, es) := _init r in
      state m = default_values
      /\ alerts es = [parse_alert message]
      /\ es = FsRead PUTER_THEME_DATA_FILENAME
                :: ConsoleError [VObj e] :: UIAlert (parse_alert message)
                :: reload_ default_values
      /\ throws es = false)
  /\ (forall e,
        r = ReadRejects e ->
        error_code e = Some (VStr "subject_does_not_exist") ->
        let '(m, es) := _init r in
        state m = default_values
        /\ alerts es = []
        /\ es = FsRead PUTER_THEME_DATA_FILENAME :: reload_ default_values)
  /\ (forall e code,
        r = ReadRejects e ->
        error_code e = Some code ->
        code <> VStr "subject_does_not_exist" ->
        let '(m, es) := _init r in
        state m = default_values
        /\ alerts es = []
        /\ es = FsRead PUTER_THEME_DATA_FILENAME
                  :: ConsoleError [e] :: reload_ default_values)
  /\ (read_text r = Some "" ->
      let '(m, es) := _init r in
      state m = default_values
      /\ alerts es = []
      /\ es = FsRead PUTER_THEME_DATA_FILENAME :: reload_ default_values).
Proof.
  split; [|split; [|split]].
  - intros text e message Hr Ht Hp Hm.
    rewrite (init_text r text Hr Ht), Hp, (parse_failed_returns e message Hm).
    rewrite and_then_returns by reflexivity. cbn [app].
    split; [reflexivity|]. split.
    { cbn [ThemeService.alerts flat_map app]. f_equal. apply alerts_reload. }
    split; [reflexivity|].
    cbn [throws existsb orb]. apply reload_default_returns.
  - intros e -> Hc. rewrite init_rejected.
    unfold ThemeService.read_failed. rewrite Hc. cbn [String.eqb].
    change (String.eqb "subject_does_not_exist" "subject_does_not_exist")
      with true. cbv iota.
    rewrite and_then_returns by reflexivity. cbn [app].
    split; [reflexivity|]. split; [|reflexivity].
    cbn [ThemeService.alerts flat_map app]. apply alerts_reload.
  - intros e code -> Hc Hn. rewrite init_rejected.
    assert (E : read_failed e = [ConsoleError [e]]).
    { unfold ThemeService.read_failed. rewrite Hc.
      destruct code as [| | | |c| |]; try reflexivity.
      destruct (String.eqb c "subject_does_not_exist") eqn:Ec;
        [|reflexivity].
      apply String.eqb_eq in Ec. subst c. now elim Hn. }
    rewrite E, and_then_returns by reflexivity. cbn [app].
    split; [reflexivity|]. split; [|reflexivity].
    cbn [ThemeService.alerts flat_map app]. apply alerts_reload.
  - intros Hr. rewrite (init_empty_text r Hr).
    split; [reflexivity|]. split; [|reflexivity].
    cbn [ThemeService.alerts flat_map app]. apply alerts_reload.
Qed.

(** C1, as the code has it. At [_init], when the text read parses to a
    value that is truthy and has a truthy [colors] property, the
    descriptor is the defaults with the properties of [colors] copied
    over them: a key of [colors] reads as [colors] has it, and every
    other key, also a field [colors] leaves out, reads as in the
    defaults. Otherwise (no [colors] property, as with a descriptor at
    the top level of the text) the descriptor is the defaults. *)
Theorem init_merges_colors (r : fs_read_result) (text : string) (data : value) :
  read_text r = Some text -> text <> "" ->
  JSON_parse text = ParseOk data ->
  let m := fst (_init r) in
  let colors := member data "colors" in
  (ToBoolean data && ToBoolean colors = true ->
   state m = spread [VObj default_values; colors]
   /\ forall key,
       get key m = match get_prop key (own_props colors) with
                   | Some v => v
                   | None => prop key default_values
                   end)
  /\ (ToBoolean data && ToBoolean colors = false ->
      state m = default_values).
Proof.
  intros Hr Ht Hp m colors. unfold m, colors.
  rewrite (init_text r text Hr Ht), Hp. cbv zeta. split; intros ->.
  - split; [reflexivity|]. intros key. apply prop_spread.
  - reflexivity.
Qed.


(** *** The render pass at its edges *)

Lemma sidebar_convertible (s : object) :
  convertible s = true ->
  exists c, sidebarTextColor s = Some c
            /\ (c = "#000000"%string \/ c = "#ffffff"%string).
Proof.
  unfold ThemeService.convertible. intros H.
  apply Bool.andb_true_iff in H as [H Ha].
  apply Bool.andb_true_iff in H as [H Hl].
  apply Bool.andb_true_iff in H as [Hh Hs].
  destruct (converts_ToNumber _ Hh) as [nh Nh].
  destruct (converts_ToNumber _ Hs) as [ns Ns].
  destruct (converts_ToNumber _ Hl) as [nl Nl].
  destruct (converts_ToNumber _ Ha) as [na Na].
  unfold ThemeService.sidebarTextColor. rewrite Nh, Ns, Nl, Na.
  eexists. split; [reflexivity|].
  unfold getOptimalTextColor. destruct (_ <=? _)%float; auto.
Qed.

Lemma ToNumber_None (v : value) : converts v = false -> ToNumber v = None.
Proof.
  rewrite <- ToNumber_converts. now destruct (ToNumber v).
Qed.

Lemma sidebar_unconvertible (s : object) :
  convertible s = false -> sidebarTextColor s = None.
Proof.
  unfold ThemeService.convertible, ThemeService.sidebarTextColor. intros H.
  destruct (converts (prop "hue" s)) eqn:Hh;
    [|now rewrite (ToNumber_None _ Hh)].
  destruct (converts (prop "sat" s)) eqn:Hs;
    [|rewrite (ToNumber_None _ Hs); now destruct (ToNumber (prop "hue" s))].
  destruct (converts (prop "lig" s)) eqn:Hl;
    [|rewrite (ToNumber_None _ Hl);
      destruct (ToNumber (prop "hue" s)); [|reflexivity];
      now destruct (ToNumber (prop "sat" s))].
  destruct (converts (prop "alpha" s)) eqn:Ha; [discriminate H|].
  rewrite (ToNumber_None _ Ha).
  destruct (ToNumber (prop "hue" s)); [|reflexivity].
  destruct (ToNumber (prop "sat" s)); [|reflexivity].
  now destruct (ToNumber (prop "lig" s)).
Qed.

Lemma setProperty_throws (name : string) (v : value) :
  setProperty_converts = true -> converts v = false ->
  setProperty name v = [Throw TypeError].
Proof.
  unfold ThemeService.setProperty, ThemeService.converts. intros ->.
  now destruct (ToString v).
Qed.

Lemma setProperty_unconverted (name : string) (v : value) :
  setProperty_converts = false ->
  setProperty name v = [SetProperty name v].
Proof. unfold ThemeService.setProperty. now intros ->. Qed.

(** The render pass of a descriptor whose [hue] or [alpha] has no
    conversion, on a page whose [setProperty] does not convert: the
    [catch] logs the error, and no sidebar colour is set. *)
Lemma reload_caught (s : object) :
  setProperty_converts = false ->
  converts (prop "sat" s) = true -> converts (prop "lig" s) = true ->
  converts (prop "hue" s) && converts (prop "alpha" s) = false ->
  exists sat lig,
    reload_ s
    = [SetProperty "--primary-hue" (prop "hue" s);
       SetProperty "--primary-saturation" (VStr sat);
       SetProperty "--primary-lightness" (VStr lig);
       SetProperty "--primary-alpha" (prop "alpha" s);
       SetProperty "--primary-color" (primaryColor s);
       ConsoleError [VStr "[ThemeService] Error calculating sidebar colors:";
                     TypeError];
       SendBroadcast "themeChanged"
         (VObj [("palette",
                 VObj [("primaryHue", prop "hue" s);
                       ("primarySaturation", VStr sat);
                       ("primaryLightness", VStr lig);
                       ("primaryAlpha", prop "alpha" s);
                       ("primaryColor", primaryColor s)])])
         (VObj [("sendToNewAppInstances", VBool true)])].
Proof.
  intros Hc Hs Hl Hha.
  destruct (converts_percent _ Hs) as [sat Es].
  destruct (converts_percent _ Hl) as [lig El].
  assert (N : sidebarTextColor s = None).
  { apply sidebar_unconvertible. unfold ThemeService.convertible.
    rewrite Hs, Hl.
    destruct (converts (prop "hue" s)); [|reflexivity].
    destruct (converts (prop "alpha" s)); [discriminate Hha|reflexivity]. }
  exists sat, lig. unfold ThemeService.reload_.
  rewrite Es, El, N, !(setProperty_unconverted _ _ Hc). reflexivity.
Qed.

(** When the render pass throws. *)
Lemma reload_throws_at (s : object) :
  converts (prop "sat" s) && converts (prop "lig" s)
  && (negb setProperty_converts
      || converts (prop "hue" s) && converts (prop "alpha" s)) = false ->
  throws (reload_ s) = true.
Proof.
  intros H. unfold ThemeService.reload_.
  destruct (Bool.bool_dec setProperty_converts true) as [Hc|Hc];
    [|apply Bool.not_true_is_false in Hc]; rewrite Hc in H.
  - cbn [negb orb] in H.
    destruct (converts (prop "hue" s)) eqn:Hh;
      [|now rewrite (setProperty_throws _ _ Hc Hh)].
    rewrite (setProperty_returns _ _ Hh).
    destruct (converts (prop "sat" s)) eqn:Hs;
      [|now rewrite (percent_None _ Hs)].
    destruct (converts_percent _ Hs) as [sat Es]. rewrite Es.
    rewrite setProperty_string.
    destruct (converts (prop "lig" s)) eqn:Hl;
      [|now rewrite (percent_None _ Hl)].
    destruct (converts_percent _ Hl) as [lig El]. rewrite El.
    rewrite setProperty_string.
    destruct (converts (prop "alpha" s)) eqn:Ha; [discriminate H|].
    now rewrite (setProperty_throws _ _ Hc Ha).
  - cbn [negb orb] in H. rewrite Bool.andb_true_r in H.
    rewrite (setProperty_unconverted _ _ Hc).
    destruct (converts (prop "sat" s)) eqn:Hs;
      [|now rewrite (percent_None _ Hs)].
    destruct (converts_percent _ Hs) as [sat Es]. rewrite Es.
    rewrite (setProperty_unconverted _ _ Hc).
    destruct (converts (prop "lig" s)) eqn:Hl; [discriminate H|].
    now rewrite (percent_None _ Hl).
Qed.

Lemma last_and_then (e : effect) (es k : list effect) :
  ~ In e es -> (In e k -> throws k = false) ->
  In e (and_then es k) -> throws (and_then es k) = false.
Proof.
  intros Hes Hk. unfold ThemeService.and_then.
  destruct (throws es) eqn:E; [intros I; now elim Hes|].
  intros I. apply in_app_or in I as [I|I]; [now elim Hes|].
  now rewrite throws_app, E, (Hk I).
Qed.

Lemma no_broadcast_setProperty
    (name : string) (v : value) (topic : string) (payload options : value) :
  ~ In (SendBroadcast topic payload options) (setProperty name v).
Proof.
  intros I.
  pose proof (In_render _ _ (render_setProperty name v) I) as R.
  unfold ThemeService.setProperty in I.
  destruct setProperty_converts; [destruct (ToString v)|];
    destruct I as [I|[]]; discriminate I.
Qed.

(** The broadcast is the last thing a render pass does: it is sent
    only by a pass that returns. *)
Lemma broadcast_returns
    (s : object) (topic : string) (payload options : value) :
  In (SendBroadcast topic payload options) (reload_ s) ->
  throws (reload_ s) = false.
Proof.
  unfold ThemeService.reload_.
  apply last_and_then; [apply no_broadcast_setProperty|].
  destruct (percent (prop "sat" s)) as [sat|];
    [|intros [I|[]]; discriminate I].
  apply last_and_then; [apply no_broadcast_setProperty|].
  destruct (percent (prop "lig" s)) as [lig|];
    [|intros [I|[]]; discriminate I].
  repeat (apply last_and_then; [apply no_broadcast_setProperty|]).
  apply last_and_then; [|reflexivity].
  destruct (sidebarTextColor s) as [c|]; [|intros [I|[]]; discriminate I].
  intros I.
  assert (R : forallb render_effect
                (and_then (setProperty "--window-sidebar-title-color" (VStr c))
                   (and_then (setProperty "--window-sidebar-item-color" (VStr c))
                      [ConsoleLog [VStr "[ThemeService] Sidebar text colors set to:";
                                   VStr c]])) = true).
  { repeat (apply render_and_then; [apply render_setProperty|]). reflexivity. }
  rewrite !setProperty_string in I. cbn in I.
  repeat (destruct I as [I|I]; [discriminate I|]). exact I.
Qed.

(** X4. A descriptor whose fields all have a conversion to a number
    and whose [alpha], [lig] or [sat] is not a number as one (an absent
    field reads as [undefined], which is NaN) gets white sidebar text:
    with [Math.pow(NaN, 2.4)] NaN, the render pass returns and sets both
    sidebar colour variables to ["#ffffff"]. *)
Theorem reload_nan_sidebar_white (s : object) (hue sat lig alpha : float) :
  Math_pow nan 2.4 = nan ->
  ToNumber (prop "hue" s) = Some hue ->
  ToNumber (prop "sat" s) = Some sat ->
  ToNumber (prop "lig" s) = Some lig ->
  ToNumber (prop "alpha" s) = Some alpha ->
  is_nan alpha || is_nan lig || is_nan sat = true ->
  sidebarTextColor s = Some "#ffffff"%string
  /\ throws (reload_ s) = false
  /\ In (SetProperty "--window-sidebar-title-color" (VStr "#ffffff")) (reload_ s)
  /\ In (SetProperty "--window-sidebar-item-color" (VStr "#ffffff")) (reload_ s).
Proof.
  intros Hpow Nh Ns Nl Na H.
  assert (E : sidebarTextColor s = Some "#ffffff"%string).
  { unfold ThemeService.sidebarTextColor. rewrite Nh, Ns, Nl, Na.
    assert (B : blendWithWhite (hslToRgb hue sat lig) alpha = (nan, nan, nan)).
    { apply Bool.orb_true_iff in H as [H|H];
        [apply Bool.orb_true_iff in H as [H|H]|];
        apply is_nan_eq in H; rewrite H.
      - apply blendWithWhite_nan_alpha.
      - rewrite hslToRgb_nan_lig. apply blendWithWhite_nan_rgb.
      - rewrite hslToRgb_nan_sat. apply blendWithWhite_nan_rgb. }
    cbv zeta. rewrite B. f_equal. now apply contrast_nan. }
  assert (C : convertible s = true).
  { unfold ThemeService.convertible.
    now rewrite (ToNumber_Some_converts _ _ Nh), (ToNumber_Some_converts _ _ Ns),
      (ToNumber_Some_converts _ _ Nl), (ToNumber_Some_converts _ _ Na). }
  split; [exact E|]. split; [now apply reload_returns|].
  destruct (reload_convertible s C) as (sat' & lig' & c & _ & _ & Ec & R).
  rewrite E in Ec. injection Ec as <-. rewrite R.
  split; cbn [In]; repeat (first [left; reflexivity | right]).
Qed.

(** X5. What a render pass comes to, by the fields that have a
    conversion to a string. It throws exactly when [sat] or [lig] has
    none, or, where [setProperty] converts its argument, when [hue] or
    [alpha] has none; then nothing is broadcast. When all four convert
    it returns, having set the two sidebar colour variables to one and
    the same colour, ["#000000"] or ["#ffffff"]. When it returns though
    [hue] or [alpha] has none, the [catch] has logged the error, no
    sidebar colour variable is set, and the broadcast is still sent. *)
Theorem reload_outcomes (s : object) :
  let sat_lig := converts (prop "sat" s) && converts (prop "lig" s) in
  let hue_alpha := converts (prop "hue" s) && converts (prop "alpha" s) in
  throws (reload_ s)
  = negb (sat_lig && (negb setProperty_converts || hue_alpha))
  /\ (throws (reload_ s) = true ->
      forall topic payload options,
        ~ In (SendBroadcast topic payload options) (reload_ s))
  /\ (sat_lig && hue_alpha = true ->
      exists c,
        (c = "#000000"%string \/ c = "#ffffff"%string)
        /\ In (SetProperty "--window-sidebar-title-color" (VStr c)) (reload_ s)
        /\ In (SetProperty "--window-sidebar-item-color" (VStr c)) (reload_ s)
        /\ exists payload options,
             In (SendBroadcast "themeChanged" payload options) (reload_ s))
  /\ (throws (reload_ s) = false -> hue_alpha = false ->
      In (ConsoleError [VStr "[ThemeService] Error calculating sidebar colors:";
                        TypeError]) (reload_ s)
      /\ (forall v, ~ In (SetProperty "--window-sidebar-title-color" v)
                         (reload_ s))
      /\ (forall v, ~ In (SetProperty "--window-sidebar-item-color" v)
                         (reload_ s))
      /\ exists payload options,
           In (SendBroadcast "themeChanged" payload options) (reload_ s)).
Proof.
  intros sat_lig hue_alpha.
  assert (T : throws (reload_ s)
              = negb (sat_lig && (negb setProperty_converts || hue_alpha))).
  { destruct (sat_lig && (negb setProperty_converts || hue_alpha)) eqn:E.
    - cbn [negb]. apply Bool.andb_true_iff in E as [E1 E2].
      unfold sat_lig in E1. apply Bool.andb_true_iff in E1 as [Hs Hl].
      destruct hue_alpha eqn:Eha.
      + apply reload_returns. unfold ThemeService.convertible.
        unfold hue_alpha in Eha. apply Bool.andb_true_iff in Eha as [Hh Ha].
        now rewrite Hh, Hs, Hl, Ha.
      + rewrite Bool.orb_false_r in E2. apply Bool.negb_true_iff in E2.
        destruct (reload_caught s E2 Hs Hl Eha) as (sat & lig & R).
        now rewrite R.
    - cbn [negb]. now apply reload_throws_at. }
  split; [exact T|]. split.
  { intros Ht topic payload options I.
    rewrite (broadcast_returns _ _ _ _ I) in Ht. discriminate Ht. }
  split.
  { intros E. apply Bool.andb_true_iff in E as [E1 E2].
    unfold sat_lig in E1. apply Bool.andb_true_iff in E1 as [Hs Hl].
    unfold hue_alpha in E2. apply Bool.andb_true_iff in E2 as [Hh Ha].
    assert (C : convertible s = true).
    { unfold ThemeService.convertible. now rewrite Hh, Hs, Hl, Ha. }
    destruct (sidebar_convertible s C) as (c & Ec & Hc).
    destruct (reload_convertible s C) as (sat & lig & c' & _ & _ & Ec' & R).
    rewrite Ec in Ec'. injection Ec' as <-.
    exists c. split; [exact Hc|]. rewrite R.
    split; [cbn [In]; repeat (first [left; reflexivity | right])|].
    split; [cbn [In]; repeat (first [left; reflexivity | right])|].
    eexists. eexists. cbn [In]. repeat (first [left; reflexivity | right]). }
  intros Ht Eha. rewrite T in Ht. apply Bool.negb_false_iff in Ht.
  apply Bool.andb_true_iff in Ht as [E1 E2].
  unfold sat_lig in E1. apply Bool.andb_true_iff in E1 as [Hs Hl].
  rewrite Eha, Bool.orb_false_r in E2. apply Bool.negb_true_iff in E2.
  destruct (reload_caught s E2 Hs Hl Eha) as (sat & lig & R). rewrite R.
  split; [cbn [In]; repeat (first [left; reflexivity | right])|].
  split.
  { intros v I. cbn [In] in I.
    repeat (destruct I as [I|I]; [discriminate I|]). exact I. }
  split.
  { intros v I. cbn [In] in I.
    repeat (destruct I as [I|I]; [discriminate I|]). exact I. }
  eexists. eexists. cbn [In]. repeat (first [left; reflexivity | right]).
Qed.

(** *** _init at its edges *)

Lemma read_failed_cases (e : value) :
  read_failed e = [] \/ read_failed e = [ConsoleError [e]]
  \/ read_failed e = [Throw TypeError].
Proof.
  unfold ThemeService.read_failed.
  destruct (error_code e) as [[| | | |c| |]|]; auto.
  destruct (String.eqb c "subject_does_not_exist"); auto.
Qed.

Lemma read_log_cases (r : fs_read_result) :
  read_log r = []
  \/ (exists e, read_log r = [ConsoleError [e]])
  \/ read_log r = [Throw TypeError].
Proof.
  destruct r as [e|text|e|text]; cbn [ThemeService.read_log]; auto;
    destruct (read_failed_cases e) as [H|[H|H]]; rewrite H; eauto.
Qed.

Lemma parse_failed_cases (e : object) :
  (exists message,
      ToString (prop "message" e) = Some message
      /\ parse_failed e
         = [ConsoleError [VObj e]; UIAlert (parse_alert message)])
  \/ (ToString (prop "message" e) = None
      /\ parse_failed e = [ConsoleError [VObj e]; Throw TypeError]).
Proof.
  destruct (ToString (prop "message" e)) as [message|] eqn:E.
  - left. exists message. split; [reflexivity|].
    now apply parse_failed_returns.
  - right. split; [reflexivity|]. now apply parse_failed_throws.
Qed.

Lemma parse_log_cases (r : fs_read_result) :
  (parse_log r = []
   /\ ~ exists text e,
          parsed_text r = Some text /\ text <> ""
          /\ JSON_parse text = ParseThrows e)
  \/ exists text e,
       parsed_text r = Some text /\ text <> ""
       /\ JSON_parse text = ParseThrows e
       /\ parse_log r = parse_failed e.
Proof.
  unfold ThemeService.parse_log.
  destruct (parsed_text r) as [text|] eqn:Hr.
  - destruct (String.eqb_spec text "") as [->|Hne].
    + left. split; [reflexivity|].
      intros (t & e & Ht & Hn & _). injection Ht as <-. now elim Hn.
    + rewrite (nonempty_truthy text Hne).
      destruct (JSON_parse text) as [d|e] eqn:Hp.
      * left. split; [reflexivity|].
        intros (t & e & Ht & _ & He). injection Ht as <-. congruence.
      * right. now exists text, e.
  - left. split; [reflexivity|].
    intros (t & e & Ht & _). discriminate Ht.
Qed.

Lemma quiet_read_log (r : fs_read_result) :
  forallb quiet_effect (read_log r) = true /\ alerts (read_log r) = [].
Proof.
  destruct (read_log_cases r) as [H|[[e H]|H]]; rewrite H; now split.
Qed.

Lemma quiet_parse_log (r : fs_read_result) :
  forallb quiet_effect (parse_log r) = true
  /\ (List.length (alerts (parse_log r)) <= 1)%nat.
Proof.
  destruct (parse_log_cases r) as [[H _]|(text & e & _ & _ & _ & H)];
    rewrite H; [split; [reflexivity|simpl; lia]|].
  destruct (parse_failed_cases e) as [(message & _ & P)|[_ P]]; rewrite P;
    split; try reflexivity; simpl; lia.
Qed.

Lemma alerts_and_then (es k : list effect) :
  alerts (and_then es k)
  = alerts es ++ (if throws es then [] else alerts k).
Proof.
  unfold ThemeService.and_then. destruct (throws es).
  - now rewrite app_nil_r.
  - apply alerts_app.
Qed.

(** The alerts of [_init] are those of the [catch] around the parse,
    when it is reached. *)
Lemma alerts_init (r : fs_read_result) :
  alerts (snd (_init r))
  = if throws (read_log r) then [] else alerts (parse_log r).
Proof.
  rewrite init_effects, !alerts_and_then.
  destruct (quiet_read_log r) as [_ ->]. rewrite alerts_reload.
  cbn [ThemeService.alerts flat_map app throws existsb].
  destruct (throws (read_log r)); [reflexivity|].
  cbn [app]. destruct (throws (parse_log r)); now rewrite app_nil_r.
Qed.

(** X6. However the read and the parse go, [_init] issues the read
    first, writes and deletes nothing, sets no timeout and raises at
    most one alert. It rejects exactly when reading [e.code] of a failed
    read throws, converting the parse error's message throws, or the
    render pass of the descriptor it settled on throws; when it does not
    reject, it ends with that render pass. *)
Theorem init_renders_last (r : fs_read_result) :
  let '(m, es) := _init r in
  (exists es', es = FsRead PUTER_THEME_DATA_FILENAME :: es')
  /\ writes es = []
  /\ (forall record, store_after es record = record)
  /\ timers m = [] /\ save_cooldown_ m = None
  /\ (List.length (alerts es) <= 1)%nat
  /\ throws es
     = throws (read_log r) || throws (parse_log r) || throws (reload_ (state m))
  /\ (throws es = false ->
      es = FsRead PUTER_THEME_DATA_FILENAME
             :: read_log r ++ parse_log r ++ reload_ (state m)).
Proof.
  pose proof (init_effects r) as E. pose proof (alerts_init r) as A.
  destruct (timers_init r) as [T C].
  destruct (_init r) as [m es]. cbn [fst snd] in *.
  destruct (quiet_read_log r) as [Q1 _].
  destruct (quiet_parse_log r) as [Q2 L].
  assert (Q : forallb quiet_effect es = true).
  { rewrite E. apply quiet_and_then; [reflexivity|].
    apply quiet_and_then; [exact Q1|].
    apply quiet_and_then; [exact Q2|].
    apply render_quiet, render_reload. }
  split.
  { rewrite E. unfold ThemeService.and_then at 1. cbn [throws existsb orb app].
    now eexists. }
  split; [now apply writes_quiet|].
  split; [intros record; now apply store_after_quiet|].
  split; [exact T|]. split; [exact C|].
  split.
  { rewrite A. destruct (throws (read_log r)); [simpl; lia|exact L]. }
  assert (Th : throws es
               = throws (read_log r) || throws (parse_log r)
                 || throws (reload_ (state m))).
  { rewrite E, !throws_and_then. cbn [throws existsb orb].
    now rewrite Bool.orb_assoc. }
  split; [exact Th|].
  intros H. rewrite Th in H.
  apply Bool.orb_false_iff in H as [H H3].
  apply Bool.orb_false_iff in H as [H1 H2].
  rewrite E.
  rewrite (and_then_returns (parse_log r) _ H2).
  rewrite (and_then_returns (read_log r) _ H1).
  reflexivity.
Qed.

(** X7. [_init] raises an alert exactly when it reaches the parse with
    text that is not empty, [JSON.parse] throws on it, and the error's
    message has a string conversion. The text is the text read or, when
    the read resolved to an object whose [text()] failed, the string of
    that object, ["[object Blob]"]: then the alert follows the logged
    read failure. A rejected read, empty text, and text that parses
    raise none. *)
Theorem init_alert_iff (r : fs_read_result) :
  (alerts (snd (_init r)) <> []
   <-> exists text e,
         throws (read_log r) = false
         /\ parsed_text r = Some text /\ text <> ""
         /\ JSON_parse text = ParseThrows e
         /\ converts (prop "message" e) = true)
  /\ (forall e, r = ReadRejects e -> alerts (snd (_init r)) = [])
  /\ (forall e e' message,
        r = ReadBlobFails e ->
        error_code e = Some VUndefined ->
        JSON_parse "[object Blob]" = ParseThrows e' ->
        ToString (prop "message" e') = Some message ->
        snd (_init r)
        = FsRead PUTER_THEME_DATA_FILENAME
            :: ConsoleError [e] :: ConsoleError [VObj e']
            :: UIAlert (parse_alert message) :: reload_ default_values).
Proof.
  assert (Iff : alerts (snd (_init r)) <> []
                <-> exists text e,
                      throws (read_log r) = false
                      /\ parsed_text r = Some text /\ text <> ""
                      /\ JSON_parse text = ParseThrows e
                      /\ converts (prop "message" e) = true).
  { rewrite alerts_init. split.
    - destruct (throws (read_log r)); [intros H; now elim H|].
      destruct (parse_log_cases r) as [[P _]|(text & e & Hr & Hn & Hp & P)];
        rewrite P; [intros H; now elim H|].
      destruct (parse_failed_cases e) as [(message & M & F)|[M F]]; rewrite F.
      + intros _. exists text, e. repeat split; try assumption.
        unfold ThemeService.converts. now rewrite M.
      + intros H. now elim H.
    - intros (text & e & Ht & Hr & Hn & Hp & Hc). rewrite Ht.
      destruct (parse_log_cases r) as [[_ N]|(t & e1 & Hr1 & _ & Hp1 & P)].
      + elim N. now exists text, e.
      + rewrite Hr in Hr1. injection Hr1 as <-.
        rewrite Hp in Hp1. injection Hp1 as <-.
        rewrite P. apply converts_ToString in Hc as [message M].
        rewrite (parse_failed_returns e message M). discriminate. }
  split; [exact Iff|]. split.
  - intros e ->. rewrite alerts_init.
    destruct (throws (read_log (ReadRejects e))); reflexivity.
  - intros e e' message -> Hc Hp Hm.
    unfold ThemeService._init, ThemeService.read_failed.
    rewrite Hc. change (ToBoolean (VStr "[object Blob]")) with true.
    cbv iota. rewrite Hp, (parse_failed_returns e' message Hm).
    reflexivity.
Qed.

(** *** Invariants of the states the page reaches *)

Lemma state_init_cases (r : fs_read_result) :
  state (fst (_init r)) = default_values
  \/ exists colors,
       state (fst (_init r)) = spread [VObj default_values; colors].
Proof.
  unfold ThemeService._init.
  destruct r as [e|text|e|text];
    repeat match goal with
           | |- context [if ToBoolean (VStr ?t) then _ else _] =>
               destruct (ToBoolean (VStr t))
           | |- context [match JSON_parse ?t with _ => _ end] =>
               destruct (JSON_parse t) as [d|e']
           end; cbn [fst state];
    repeat match goal with
           | |- context [if ?b then _ else _] => destruct b
           end; solve [now left | right; now eexists].
Qed.

Lemma has_fields_init (r : fs_read_result) :
  has_fields (state (fst (_init r))).
Proof.
  destruct (state_init_cases r) as [->|[colors ->]].
  - exact has_fields_default.
  - apply has_fields_spread, has_fields_default.
Qed.

Lemma has_fields_step (c : ThemeService.call) (m : machine) :
  has_fields (state m) -> has_fields (state (fst (step c m))).
Proof.
  intros H. destruct c as [values| |dt]; cbn [ThemeService.step].
  - rewrite state_apply. now apply has_fields_spread.
  - rewrite reset_eq. exact has_fields_default.
  - exact H.
Qed.

Lemma has_fields_run (cs : list ThemeService.call) (m : machine) :
  has_fields (state m) -> has_fields (state (fst (run cs m))).
Proof.
  revert m. induction cs as [|c cs IH]; intros m H; simpl; [exact H|].
  pose proof (has_fields_step c m H) as H1.
  destruct (step c m) as [m1 e1]. cbn [fst] in H1.
  pose proof (IH m1 H1) as H2. destruct (run cs m1) as [m2 e2]. exact H2.
Qed.

(** X8. In every state the page reaches, by [_init] on any read and
    any parse followed by any calls of [apply] and [reset] and any
    passing of time, each descriptor field ([sat], [hue], [lig], [alpha],
    [light_text]) is an own property of the descriptor: no merge drops a
    field. *)
Theorem fields_always_present
    (r : fs_read_result) (cs : list ThemeService.call) (key : string) :
  In key descriptor_fields ->
  has_prop key (state (fst (run cs (fst (_init r))))) = true.
Proof.
  intros H. exact (has_fields_run cs _ (has_fields_init r) key H).
Qed.

Lemma settled_step (c : ThemeService.call) (m : machine) :
  settled m -> settled (fst (step c m)).
Proof.
  intros [Hm Hl]. split; [now apply one_pending_step|].
  destruct c as [values| |dt]; cbn [ThemeService.step].
  - destruct (throws (reload_ (spread [VObj (state m); values]))) eqn:E.
    + rewrite (apply_throws values m E). exact Hl.
    + rewrite (apply_one_pending values m Hm E). simpl. lia.
  - rewrite reset_eq. exact Hl.
  - cbn [ThemeService.elapse fst timers].
    pose proof (filter_length_le
                  (fun timer => negb (ThemeService.is_due (clock m + dt) timer))
                  (timers m)). lia.
Qed.

Lemma settled_run (cs : list ThemeService.call) (m : machine) :
  settled m -> settled (fst (run cs m)).
Proof.
  revert m. induction cs as [|c cs IH]; intros m H; simpl; [exact H|].
  pose proof (settled_step c m H) as H1.
  destruct (step c m) as [m1 e1]. cbn [fst] in H1.
  pose proof (IH m1 H1) as H2. destruct (run cs m1) as [m2 e2]. exact H2.
Qed.

(** X9. In every state the page reaches at most one timeout is pending,
    and it is the one whose handle [save_cooldown_] holds: [save_] never
    leaves two saves in flight. *)
Theorem at_most_one_pending_save
    (r : fs_read_result) (cs : list ThemeService.call) :
  let m := fst (run cs (fst (_init r))) in
  (List.length (timers m) <= 1)%nat
  /\ forall h due, In (h, due) (timers m) -> save_cooldown_ m = Some h.
Proof.
  assert (S0 : settled (fst (_init r))).
  { split.
    - apply one_pending_init.
    - destruct (timers_init r) as [-> _]. simpl. lia. }
  destruct (settled_run cs _ S0) as [H1 H2]. split; [exact H2|exact H1].
Qed.

(** *** apply at its edges *)

(** X10. [apply] merges: after [apply(v1)] and then [apply(v2)], a key
    reads as [v2] has it, else as [v1] has it, else as it read before,
    for any two values and any descriptor; so applying the same value a
    second time changes no field. *)
Theorem apply_apply_merges (m : machine) (v1 v2 : value) (key : string) :
  get key (fst (apply v2 (fst (apply v1 m))))
  = match get_prop key (own_props v2) with
    | Some x => x
    | None => match get_prop key (own_props v1) with
              | Some x => x
              | None => get key m
              end
    end
  /\ get key (fst (apply v1 (fst (apply v1 m)))) = get key (fst (apply v1 m)).
Proof.
  rewrite !get_apply.
  split; [reflexivity|]. now destruct (get_prop key (own_props v1)).
Qed.

Lemma reload_apply_nothing (m : machine) (values : value) :
  own_props values = [] ->
  reload_ (spread [VObj (state m); values]) = reload_ (state m).
Proof.
  intros H. apply reload_ext. intros key. now rewrite prop_spread, H.
Qed.

(** X11. [apply] of a value with no own enumerable properties
    ([undefined], [null], a number, a boolean, an empty object, array or
    string) changes no field. When the render pass of the descriptor
    returns, the call still runs it and sets the save timeout; when it
    throws, the call throws with it and sets none. *)
Theorem apply_nothing (m : machine) (values : value) :
  own_props values = [] ->
  let '(m', es) := apply values m in
  (forall key, get key m' = get key m)
  /\ (throws (reload_ (state m)) = false ->
      (exists es', es = reload_ (state m) ++ es')
      /\ In (SetTimeout (next_handle m) SAVE_COOLDOWN_TIME) es
      /\ In (next_handle m, (clock m + SAVE_COOLDOWN_TIME)%N) (timers m'))
  /\ (throws (reload_ (state m)) = true ->
      es = reload_ (state m)
      /\ timers m' = timers m /\ save_cooldown_ m' = save_cooldown_ m).
Proof.
  intros H. pose proof (reload_apply_nothing m values H) as R.
  assert (G : forall key, get key (fst (apply values m)) = get key m).
  { intros key. now rewrite get_apply, H. }
  destruct (throws (reload_ (state m))) eqn:E.
  - rewrite apply_throws in * by now rewrite R.
    split; [exact G|]. split; [discriminate|].
    intros _. now rewrite R.
  - rewrite apply_returns in * by now rewrite R.
    split; [exact G|]. split; [|discriminate].
    intros _. rewrite R. unfold ThemeService.save_.
    cbn [state save_cooldown_ clock timers next_handle
         ThemeService.set_state].
    destruct (save_cooldown_ m) as [h|]; cbn [fst snd timers].
    + split; [eexists; reflexivity|].
      split; [apply in_or_app; right; right; left; reflexivity|].
      apply in_or_app. right. left. reflexivity.
    + split; [eexists; reflexivity|].
      split; [apply in_or_app; right; left; reflexivity|].
      apply in_or_app. right. left. reflexivity.
Qed.

(** *** Histories *)

Lemma run_app (cs1 cs2 : list ThemeService.call) (m : machine) :
  run (cs1 ++ cs2) m
  = let '(m1, e1) := run cs1 m in
    let '(m2, e2) := run cs2 m1 in
    (m2, e1 ++ e2).
Proof.
  revert m. induction cs1 as [|c cs1 IH]; intros m; simpl.
  - now destruct (run cs2 m).
  - destruct (step c m) as [m1 e1]. rewrite IH.
    destruct (run cs1 m1) as [m2 e2]. destruct (run cs2 m2) as [m3 e3].
    now rewrite app_assoc.
Qed.

Lemma elapse_idle (dt : N) (m : machine) :
  timers m = [] ->
  elapse dt m
  = ({| state := state m;
        save_cooldown_ := save_cooldown_ m;
        clock := (clock m + dt)%N;
        timers := [];
        next_handle := next_handle m |}, []).
Proof. intros H. unfold ThemeService.elapse. now rewrite H. Qed.

Lemma run_idle (dts : list N) :
  forall m, timers m = [] ->
    exists m', run (map Elapse dts) m = (m', [])
               /\ state m' = state m /\ timers m' = [].
Proof.
  induction dts as [|dt dts IH]; intros m H;
    cbn [map ThemeService.run ThemeService.step].
  - now exists m.
  - rewrite (elapse_idle dt m H).
    destruct (IH {| state := state m;
                    save_cooldown_ := save_cooldown_ m;
                    clock := (clock m + dt)%N;
                    timers := [];
                    next_handle := next_handle m |} eq_refl)
      as (m' & E & S & T).
    rewrite E. now exists m'.
Qed.

Lemma run_idle_cooldown (dts : list N) :
  forall m, timers m = [] ->
    save_cooldown_ (fst (run (map Elapse dts) m)) = save_cooldown_ m.
Proof.
  induction dts as [|dt dts IH]; intros m H;
    cbn [map ThemeService.run ThemeService.step]; [reflexivity|].
  rewrite (elapse_idle dt m H).
  specialize (IH {| state := state m;
                    save_cooldown_ := save_cooldown_ m;
                    clock := (clock m + dt)%N;
                    timers := [];
                    next_handle := next_handle m |} eq_refl).
  destruct (run (map Elapse dts) _) as [m' e']. exact IH.
Qed.

(** A pending save fires once, when the time that passes reaches its
    due time, and writes the descriptor, which no passing of time
    changes. *)
Lemma run_quiet_fires (dts : list N) :
  forall m h due,
    timers m = [(h, due)] -> (clock m < due)%N ->
    (due <= clock m + total dts)%N ->
    exists m',
      run (map Elapse dts) m
      = (m', [FsWrite PUTER_THEME_DATA_FILENAME (saved (state m))])
      /\ state m' = state m /\ timers m' = [].
Proof.
  induction dts as [|dt dts IH]; intros m h due Ht Hc Hd.
  - simpl in Hd. lia.
  - cbn [map ThemeService.run ThemeService.step].
    cbn [total fold_right] in Hd. fold (total dts) in Hd.
    destruct (N.le_gt_cases due (clock m + dt)) as [L|G].
    + rewrite (elapse_due dt m h due Ht L).
      destruct (run_idle dts
                  {| state := state m;
                     save_cooldown_ := save_cooldown_ m;
                     clock := (clock m + dt)%N;
                     timers := [];
                     next_handle := next_handle m |} eq_refl)
        as (m' & E & S & T).
      rewrite E. exists m'. now rewrite S.
    + rewrite (elapse_early dt m h due Ht G).
      destruct (IH {| state := state m;
                      save_cooldown_ := save_cooldown_ m;
                      clock := (clock m + dt)%N;
                      timers := [(h, due)];
                      next_handle := next_handle m |} h due eq_refl)
        as (m' & E & S & T); cbn [clock]; try lia.
      rewrite E. exists m'. now rewrite S.
Qed.

Lemma one_pending_single (m : machine) (h : positive) (due : N) :
  timers m = [(h, due)] -> save_cooldown_ m = Some h -> one_pending m.
Proof.
  intros Ht Hs h' d H. rewrite Ht in H. destruct H as [E|[]].
  now inversion E; subst.
Qed.

Lemma merges_app (s : object) (vs1 vs2 : list value) :
  merges s (vs1 ++ vs2) = merges s vs1 ++ merges (merged s vs1) vs2.
Proof.
  revert s. induction vs1 as [|v vs1 IH]; intros s; [reflexivity|].
  cbn [app merges]. now rewrite IH.
Qed.

(** While [apply] calls follow each other by less than the cooldown,
    the render pass of each returning, nothing reaches the store. *)
Lemma burst_silent (l : list (value * N)) :
  forall m,
    one_pending m ->
    Forall (fun vd => (snd vd < SAVE_COOLDOWN_TIME)%N) l ->
    Forall (fun s => throws (reload_ s) = false)
           (merges (state m) (map fst l)) ->
    exists m1 e1,
      run (burst l) m = (m1, e1)
      /\ writes e1 = []
      /\ one_pending m1
      /\ state m1 = merged (state m) (map fst l).
Proof.
  induction l as [|[v d] l IH]; intros m Hm Hl Hr.
  - exists m, []. now repeat split.
  - inversion Hl as [|? ? Hd Hl']; subst. cbn [snd] in Hd.
    cbn [map fst merges] in Hr.
    inversion Hr as [|? ? Hr1 Hr']; subst.
    cbn [burst flat_map fst snd app ThemeService.run ThemeService.step].
    rewrite (apply_one_pending v m Hm Hr1).
    set (m1 := {| state := spread [VObj (state m); v];
                  save_cooldown_ := Some (next_handle m);
                  clock := clock m;
                  timers := [(next_handle m, (clock m + SAVE_COOLDOWN_TIME)%N)];
                  next_handle := Pos.succ (next_handle m) |}).
    rewrite (elapse_early d m1 (next_handle m)
               (clock m + SAVE_COOLDOWN_TIME)%N eq_refl)
      by (cbn [clock m1]; lia).
    set (m2 := {| state := state m1;
                  save_cooldown_ := save_cooldown_ m1;
                  clock := (clock m1 + d)%N;
                  timers := [(next_handle m, (clock m + SAVE_COOLDOWN_TIME)%N)];
                  next_handle := next_handle m1 |}).
    assert (Hm2 : one_pending m2)
      by (apply (one_pending_single m2 _ _ eq_refl); reflexivity).
    destruct (IH m2 Hm2 Hl' Hr') as (m3 & e3 & E & W & P & S).
    fold (burst l). rewrite E.
    exists m3. eexists. split; [reflexivity|].
    split.
    { rewrite !writes_app, W, writes_reload. now rewrite writes_cleared. }
    split; [exact P|]. rewrite S. reflexivity.
Qed.

(** X12. A burst of [apply] calls, each followed by less than the
    cooldown, then a last [apply] and a full cooldown, the render pass
    of every call returning: over the whole history exactly one write
    is issued, and it is the serialization of the descriptor with every
    value of the burst merged in, in order; nothing is left pending. *)
Theorem burst_one_write
    (m : machine) (l : list (value * N)) (v : value) (dt : N) :
  one_pending m ->
  Forall (fun vd => (snd vd < SAVE_COOLDOWN_TIME)%N) l ->
  (SAVE_COOLDOWN_TIME <= dt)%N ->
  Forall (fun s => throws (reload_ s) = false)
         (merges (state m) (map fst l ++ [v])) ->
  let '(m', es) := run (burst l ++ [Apply v; Elapse dt]) m in
  state m' = merged (state m) (map fst l ++ [v])
  /\ writes es = [saved (state m')]
  /\ timers m' = [].
Proof.
  intros Hm Hl Hdt Hr. rewrite run_app.
  rewrite merges_app in Hr. apply Forall_app in Hr as [Hr Hv].
  cbn [merges] in Hv. inversion Hv as [|? ? Hv1 _]; subst.
  destruct (burst_silent l m Hm Hl Hr) as (m1 & e1 & E & W & P & S). rewrite E.
  cbn [ThemeService.run ThemeService.step].
  rewrite <- S in Hv1.
  rewrite (apply_one_pending v m1 P Hv1).
  set (m2 := {| state := spread [VObj (state m1); v];
                save_cooldown_ := Some (next_handle m1);
                clock := clock m1;
                timers := [(next_handle m1, (clock m1 + SAVE_COOLDOWN_TIME)%N)];
                next_handle := Pos.succ (next_handle m1) |}).
  rewrite (elapse_due dt m2 (next_handle m1)
             (clock m1 + SAVE_COOLDOWN_TIME)%N eq_refl)
    by (cbn [clock m2]; lia).
  cbn [state timers m2].
  split.
  { unfold merged. rewrite fold_left_app. simpl. fold (merged (state m) (map fst l)).
    now rewrite S. }
  split; [|reflexivity].
  rewrite !writes_app, W, writes_reload.
  now rewrite writes_cleared.
Qed.

(** X13. Eventual persistence: whatever happened before, calls of
    [reset] and calls that threw included, once an [apply] whose render
    pass returns is followed by nothing but time adding up to the
    cooldown, the store, serving the requests in order, holds the
    serialization of the current descriptor, and no save is pending. *)
Theorem apply_eventually_saved
    (m : machine) (pre : list ThemeService.call) (v : value) (dts : list N)
    (record : option string) :
  one_pending m ->
  (SAVE_COOLDOWN_TIME <= total dts)%N ->
  throws (reload_ (spread [VObj (state (fst (run pre m))); v])) = false ->
  let '(m', es) := run (pre ++ Apply v :: map Elapse dts) m in
  store_after es record = Some (saved (state m'))
  /\ state m' = spread [VObj (state (fst (run pre m))); v]
  /\ timers m' = [].
Proof.
  intros Hm Hd Hr. rewrite run_app.
  pose proof (one_pending_run pre m Hm) as P.
  destruct (run pre m) as [m1 e1]. cbn [fst] in *.
  cbn [ThemeService.run ThemeService.step].
  rewrite (apply_one_pending v m1 P Hr).
  set (m2 := {| state := spread [VObj (state m1); v];
                save_cooldown_ := Some (next_handle m1);
                clock := clock m1;
                timers := [(next_handle m1, (clock m1 + SAVE_COOLDOWN_TIME)%N)];
                next_handle := Pos.succ (next_handle m1) |}).
  destruct (run_quiet_fires dts m2 (next_handle m1)
              (clock m1 + SAVE_COOLDOWN_TIME)%N eq_refl)
    as (m3 & E & S & T); cbn [clock m2]; try (unfold SAVE_COOLDOWN_TIME; lia).
  { unfold SAVE_COOLDOWN_TIME in *. lia. }
  rewrite E. rewrite S. cbn [state m2].
  split; [|split; [reflexivity|exact T]].
  rewrite !store_after_app. reflexivity.
Qed.

Lemma run_quiet_waits (dts : list N) :
  forall m h due,
    timers m = [(h, due)] -> (clock m + total dts < due)%N ->
    exists m',
      run (map Elapse dts) m = (m', [])
      /\ state m' = state m /\ timers m' = [(h, due)].
Proof.
  induction dts as [|dt dts IH]; intros m h due Ht Hd;
    cbn [map ThemeService.run ThemeService.step].
  - now exists m.
  - cbn [total fold_right] in Hd. fold (total dts) in Hd.
    rewrite (elapse_early dt m h due Ht) by lia.
    destruct (IH {| state := state m;
                    save_cooldown_ := save_cooldown_ m;
                    clock := (clock m + dt)%N;
                    timers := [(h, due)];
                    next_handle := next_handle m |} h due eq_refl)
      as (m' & E & S & T); cbn [clock]; try lia.
    rewrite E. now exists m'.
Qed.

(** X16. The save waits out the cooldown: after an [apply] whose
    render pass returns, while the time that has passed is less than the
    cooldown, nothing is written, the store is as it was, and the save
    is still pending. *)
Theorem apply_not_saved_early
    (m : machine) (v : value) (dts : list N) (record : option string) :
  one_pending m ->
  (total dts < SAVE_COOLDOWN_TIME)%N ->
  throws (reload_ (spread [VObj (state m); v])) = false ->
  let '(m', es) := run (Apply v :: map Elapse dts) m in
  writes es = []
  /\ store_after es record = record
  /\ timers m' = [(next_handle m, (clock m + SAVE_COOLDOWN_TIME)%N)].
Proof.
  intros Hm Hd Hr. cbn [ThemeService.run ThemeService.step].
  rewrite (apply_one_pending v m Hm Hr).
  set (m2 := {| state := spread [VObj (state m); v];
                save_cooldown_ := Some (next_handle m);
                clock := clock m;
                timers := [(next_handle m, (clock m + SAVE_COOLDOWN_TIME)%N)];
                next_handle := Pos.succ (next_handle m) |}).
  destruct (run_quiet_waits dts m2 (next_handle m)
              (clock m + SAVE_COOLDOWN_TIME)%N eq_refl)
    as (m3 & E & S & T); [cbn [clock m2]; lia|].
  rewrite E. rewrite app_nil_r.
  split.
  { now rewrite !writes_app, writes_cleared, writes_reload. }
  split; [|exact T].
  now rewrite !store_after_app, store_after_cleared, store_after_reload.
Qed.

(** X14. [reset] with no save pending deletes for good: whatever time
    passes afterwards, nothing is written and the store, serving the
    requests in order, holds no record. *)
Theorem reset_when_quiet_deletes
    (m : machine) (dts : list N) (record : option string) :
  timers m = [] ->
  let '(m', es) := run (Reset :: map Elapse dts) m in
  state m' = default_values
  /\ writes es = []
  /\ store_after es record = None.
Proof.
  intros Ht. cbn [ThemeService.run ThemeService.step].
  rewrite (reset_eq m).
  destruct (run_idle dts
              {| state := default_values;
                 save_cooldown_ := save_cooldown_ m;
                 clock := clock m;
                 timers := timers m;
                 next_handle := next_handle m |} Ht) as (m' & E & S & T).
  rewrite E. split; [exact S|].
  rewrite app_nil_r. split.
  - now rewrite writes_app, writes_reload.
  - rewrite store_after_app. now rewrite store_after_reload.
Qed.

(** X17. An [apply] whose render pass throws is never saved: the
    descriptor is replaced all the same, so [get] returns the new
    values, but no timeout is set or cleared, and with no save pending
    before, whatever time passes afterwards nothing is written and the
    store is as it was. *)
Theorem apply_throws_unsaved
    (m : machine) (v : value) (dts : list N) (record : option string) :
  timers m = [] ->
  throws (reload_ (spread [VObj (state m); v])) = true ->
  let '(m', es) := run (Apply v :: map Elapse dts) m in
  state m' = spread [VObj (state m); v]
  /\ (forall key, get key m' = match get_prop key (own_props v) with
                               | Some x => x
                               | None => get key m
                               end)
  /\ es = reload_ (spread [VObj (state m); v])
  /\ (forall h d, ~ In (SetTimeout h d) es)
  /\ (forall h, ~ In (ClearTimeout h) es)
  /\ writes es = []
  /\ store_after es record = record
  /\ timers m' = [] /\ save_cooldown_ m' = save_cooldown_ m.
Proof.
  intros Ht Hr. cbn [ThemeService.run ThemeService.step].
  rewrite (apply_throws v m Hr).
  destruct (run_idle dts
              (ThemeService.set_state (spread [VObj (state m); v]) m) Ht)
    as (m' & E & S & T).
  pose proof (run_idle_cooldown dts
                (ThemeService.set_state (spread [VObj (state m); v]) m) Ht)
    as C.
  rewrite E in C. cbn [fst save_cooldown_ ThemeService.set_state] in C.
  rewrite E, app_nil_r. cbn [state ThemeService.set_state] in S.
  split; [exact S|]. split.
  { intros key. unfold ThemeService.get. rewrite S. apply prop_spread. }
  split; [reflexivity|].
  split; [intros h d; apply no_timeout_in_reload|].
  split; [intros h; apply no_clear_in_reload|].
  split; [apply writes_reload|].
  split; [apply store_after_reload|].
  split; [exact T|exact C].
Qed.

(** *** Saving and loading *)



End ServiceFacts.

(** ** The theorems on examples *)

Section Examples.

Local Open Scope list_scope.
Import ThemeService.

Local Notation reload_ :=
  (ThemeService.reload_ Sample.pow Sample.number_to_string
     Sample.string_to_number Sample.type_error true).
Local Notation apply :=
  (ThemeService.apply Sample.pow Sample.number_to_string
     Sample.string_to_number Sample.type_error true).
Local Notation reset :=
  (ThemeService.reset Sample.pow Sample.number_to_string
     Sample.string_to_number Sample.type_error true).
Local Notation _init :=
  (ThemeService._init Sample.pow Sample.number_to_string
     Sample.string_to_number Sample.parse Sample.type_error true).
Local Notation elapse := (ThemeService.elapse Sample.stringify).
Local Notation run :=
  (ThemeService.run Sample.pow Sample.number_to_string Sample.string_to_number
     Sample.stringify Sample.type_error true).
Local Notation parse_alert message :=
  (VObj [("title", VStr "Error loading theme data");
         ("message",
          VStr ("Could not parse " ++ dquote ++ "~/.__puter_gui.json" ++ dquote
                  ++ ": " ++ message))]).

Lemma fresh_one_pending : one_pending Sample.fresh.
Proof. intros h d []. Defined.

Lemma getContrastRatio_bounds_witness :
  Sample.pow 1 2.4 = 1%float
  /\ getContrastRatio Sample.pow black black = 1%float
  /\ getContrastRatio Sample.pow black white = 21%float.
Proof.
  split; [reflexivity|].
  apply (getContrastRatio_bounds Sample.pow). reflexivity.
Defined.

Lemma getOptimalTextColor_better_witness :
  (getContrastRatio Sample.pow white white
     <? getContrastRatio Sample.pow black white)%float = true
  /\ getOptimalTextColor Sample.pow white = "#000000".
Proof.
  split; [reflexivity|].
  apply (proj1 (proj2 (getOptimalTextColor_better Sample.pow white))).
  reflexivity.
Defined.

Lemma blendWithWhite_endpoints_witness :
  blendWithWhite (of_Z 10, of_Z 254, of_Z 255) 1
  = (of_Z 10, of_Z 254, of_Z 255)
  /\ blendWithWhite (of_Z 10, of_Z 254, of_Z 255) 0
     = (of_Z 133, of_Z 255, of_Z 255).
Proof.
  destruct (blendWithWhite_endpoints 10 254 255) as (H1 & _ & H3 & _);
    [lia | lia | lia |].
  split; [exact H1 | exact H3].
Defined.

Lemma apply_hue_roundtrip_witness :
  "alpha" <> "hue"
  /\ get "hue" (fst (apply (VObj [("hue", VNum 120)]) Sample.fresh))
     = VNum 120
  /\ get "alpha" (fst (apply (VObj [("hue", VNum 120)]) Sample.fresh))
     = get "alpha" Sample.fresh.
Proof.
  assert (Hne : "alpha" <> "hue") by discriminate.
  split; [exact Hne|].
  destruct (apply_hue_roundtrip Sample.pow Sample.number_to_string
              Sample.string_to_number Sample.type_error true Sample.fresh)
    as [H1 H2].
  split; [exact H1 | exact (H2 "alpha" Hne)].
Defined.



Lemma reset_leaves_save_pending_witness :
  let '(m1, e1) := apply (VObj [("hue", VNum 120)]) Sample.fresh in
  let '(m2, e2) := elapse 300 m1 in
  let '(m3, e3) := reset m2 in
  let '(m4, e4) := elapse 700 m3 in
  timers m1 = [(1%positive, 1000%N)]
  /\ timers m3 = [(1%positive, 1000%N)]
  /\ store_after (e1 ++ e2 ++ e3) (Some "old") = None
  /\ store_after (e1 ++ e2 ++ e3 ++ e4) (Some "old")
     = Some (Sample.stringify (VObj [("colors", VObj default_values)]) 5).
Proof.
  assert (Hearly : (clock Sample.fresh + 300 < 1000)%N) by reflexivity.
  assert (Hlate : (1000 <= clock Sample.fresh + 300 + 700)%N)
    by (intros C; vm_compute in C; discriminate C).
  pose proof (reset_leaves_save_pending Sample.pow Sample.number_to_string
                Sample.string_to_number Sample.stringify
                Sample.type_error true
                Sample.fresh (VObj [("hue", VNum 120)]) 300 700
                fresh_one_pending) as H.
  destruct (apply (VObj [("hue", VNum 120)]) Sample.fresh) as [m1 e1].
  destruct H as [Hpending H].
  specialize (Hpending eq_refl).
  specialize (H 1%positive 1000%N Hpending Hearly Hlate).
  destruct (elapse 300 m1) as [m2 e2].
  destruct (reset m2) as [m3 e3].
  destruct (elapse 700 m3) as [m4 e4].
  destruct H as (H2 & H3 & _ & _ & _ & Hstore).
  split; [exact Hpending|].
  split; [now rewrite H3|]. exact (Hstore (Some "old")).
Defined.

Lemma init_failures_witness :
  (let '(m, es) := _init (ReadBlob Sample.malformed_text) in
   state m = default_values
   /\ alerts es
      = [parse_alert "Expected property name or '}' in JSON at position 1"])
  /\ (let '(m, es) := _init (ReadRejects Sample.not_found) in
      state m = default_values /\ alerts es = [])
  /\ (let '(m, es) := _init (ReadRejects Sample.forbidden) in
      state m = default_values /\ alerts es = []
      /\ es = FsRead PUTER_THEME_DATA_FILENAME
                :: ConsoleError [Sample.forbidden] :: reload_ default_values).
Proof.
  assert (Hne : Sample.malformed_text <> "") by discriminate.
  assert (Hcode : VStr "forbidden" <> VStr "subject_does_not_exist")
    by discriminate.
  split; [|split].
  - pose proof (proj1 (init_failures Sample.pow Sample.number_to_string
                         Sample.string_to_number Sample.parse
                         Sample.type_error true
                         (ReadBlob Sample.malformed_text))
                  Sample.malformed_text Sample.syntax_error
                  "Expected property name or '}' in JSON at position 1"
                  eq_refl Hne eq_refl eq_refl) as H.
    destruct (_init (ReadBlob Sample.malformed_text)) as [m es].
    destruct H as (H1 & H2 & _). split; assumption.
  - pose proof (proj1 (proj2 (init_failures Sample.pow
                                Sample.number_to_string
                                Sample.string_to_number Sample.parse
                                Sample.type_error true
                                (ReadRejects Sample.not_found)))
                  Sample.not_found eq_refl eq_refl) as H.
    destruct (_init (ReadRejects Sample.not_found)) as [m es].
    destruct H as (H1 & H2 & _). split; assumption.
  - pose proof (proj1 (proj2 (proj2 (init_failures Sample.pow
                                Sample.number_to_string
                                Sample.string_to_number Sample.parse
                                Sample.type_error true
                                (ReadRejects Sample.forbidden))))
                  Sample.forbidden (VStr "forbidden") eq_refl eq_refl Hcode)
      as H.
    destruct (_init (ReadRejects Sample.forbidden)) as [m es].
    exact H.
Defined.

(** C7, as stated, fails: a record that is found and is empty is
    present and is not valid structured data, [JSON.parse] would reject
    it, yet [_init] does not parse it: no alert is raised and nothing is
    logged. *)
Lemma init_empty_record_no_alert :
  Sample.parse "" = ParseThrows Sample.syntax_error
  /\ (let '(m, es) := _init (ReadBlob "") in
      state m = default_values
      /\ alerts es = []
      /\ es = FsRead PUTER_THEME_DATA_FILENAME :: reload_ default_values).
Proof.
  split; [reflexivity|]. repeat split; reflexivity.
Qed.

Lemma init_merges_colors_witness :
  Sample.parse Sample.colors_text
  = ParseOk (VObj [("colors", VObj [("hue", VNum 120)])])
  /\ get "hue" (fst (_init (ReadBlob Sample.colors_text))) = VNum 120
  /\ get "alpha" (fst (_init (ReadBlob Sample.colors_text))) = VNum 0.8.
Proof.
  assert (Hne : Sample.colors_text <> "") by discriminate.
  split; [reflexivity|].
  destruct (init_merges_colors Sample.pow Sample.number_to_string
              Sample.string_to_number Sample.parse Sample.type_error true
              (ReadBlob Sample.colors_text) Sample.colors_text
              (VObj [("colors", VObj [("hue", VNum 120)])])
              eq_refl Hne eq_refl) as [H _].
  destruct (H eq_refl) as [_ Hget].
  split; [exact (Hget "hue") | exact (Hget "alpha")].
Defined.

(** C1, as stated, fails: a text that parses to a descriptor at the top
    level, [{hue: 120}], is not merged; [get('hue')] is the default 210
    and not the persisted 120. *)
Lemma init_ignores_top_level_descriptor :
  Sample.parse Sample.top_level_text = ParseOk (VObj [("hue", VNum 120)])
  /\ get "hue" (fst (_init (ReadBlob Sample.top_level_text))) = VNum 210
  /\ get "hue" (fst (_init (ReadBlob Sample.top_level_text))) <> VNum 120.
Proof.
  split; [reflexivity|]. split; [reflexivity|].
  intros H.
  apply (f_equal (fun v => match v with
                           | VNum n => (n =? 120)%float
                           | _ => true
                           end)) in H.
  vm_compute in H. discriminate H.
Qed.

Lemma hslToRgb_nan_hue_witness :
  (0 <= 41 <= 100)%Z /\ (0 <= 93 <= 100)%Z
  /\ exists c : float,
       hslToRgb nan (of_Z 41) (of_Z 93) = (c, c, c)
       /\ (0 <=? c)%float = true /\ (c <=? 255)%float = true
       /\ Math_round c = c
       /\ (c <=? Math_round (of_Z 93 / 100 * 255))%float = true.
Proof.
  assert (Hs : (0 <= 41 <= 100)%Z) by lia.
  assert (Hl : (0 <= 93 <= 100)%Z) by lia.
  split; [exact Hs|]. split; [exact Hl|].
  exact (hslToRgb_nan_hue 41 93 Hs Hl).
Defined.

Lemma getOptimalTextColor_nan_witness :
  Sample.pow nan 2.4 = nan
  /\ getOptimalTextColor Sample.pow (nan, 0, 0)%float = "#ffffff".
Proof.
  split; [reflexivity|].
  exact (proj2 (proj2 (proj2 (getOptimalTextColor_nan Sample.pow nan 0 0
                                eq_refl eq_refl)))).
Defined.

Lemma reload_nan_sidebar_white_witness :
  In (SetProperty "--window-sidebar-title-color" (VStr "#ffffff"))
     (reload_ [("hue", VNum 210); ("sat", VNum 41.18); ("lig", VNum 93.33)]).
Proof.
  exact (proj1 (proj2 (proj2
           (reload_nan_sidebar_white Sample.pow
              Sample.number_to_string Sample.string_to_number
              Sample.type_error true
              [("hue", VNum 210); ("sat", VNum 41.18); ("lig", VNum 93.33)]
              210 41.18 93.33 nan
              eq_refl eq_refl eq_refl eq_refl eq_refl eq_refl)))).
Defined.

Lemma reload_outcomes_witness :
  (exists c,
      (c = "#000000" \/ c = "#ffffff")
      /\ In (SetProperty "--window-sidebar-title-color" (VStr c))
            (reload_ default_values)
      /\ In (SetProperty "--window-sidebar-item-color" (VStr c))
            (reload_ default_values)
      /\ exists payload options,
           In (SendBroadcast "themeChanged" payload options)
              (reload_ default_values))
  /\ In (ConsoleError [VStr "[ThemeService] Error calculating sidebar colors:";
                       Sample.type_error])
        (ThemeService.reload_ Sample.pow Sample.number_to_string
           Sample.string_to_number Sample.type_error false
           [("hue", Sample.unconvertible); ("sat", VNum 41.18);
            ("lig", VNum 93.33); ("alpha", VNum 0.8)]).
Proof.
  split.
  - exact (proj1 (proj2 (proj2
             (reload_outcomes Sample.pow Sample.number_to_string
                Sample.string_to_number Sample.type_error true
                default_values))) eq_refl).
  - exact (proj1 (proj2 (proj2 (proj2
             (reload_outcomes Sample.pow Sample.number_to_string
                Sample.string_to_number Sample.type_error false
                [("hue", Sample.unconvertible); ("sat", VNum 41.18);
                 ("lig", VNum 93.33); ("alpha", VNum 0.8)])))
             eq_refl eq_refl)).
Defined.

Lemma init_renders_last_witness :
  snd (_init (ReadBlob Sample.colors_text))
  = FsRead PUTER_THEME_DATA_FILENAME
      :: reload_ (state (fst (_init (ReadBlob Sample.colors_text)))).
Proof.
  pose proof (init_renders_last Sample.pow Sample.number_to_string
                Sample.string_to_number Sample.parse Sample.type_error true
                (ReadBlob Sample.colors_text)) as H.
  destruct (_init (ReadBlob Sample.colors_text)) as [m es] eqn:E.
  assert (Hes : throws es = false).
  { apply (f_equal snd) in E. cbn [snd] in E. rewrite <- E. reflexivity. }
  cbn [fst snd].
  exact (proj2 (proj2 (proj2 (proj2 (proj2 (proj2 (proj2 H)))))) Hes).
Defined.

Lemma init_alert_iff_witness :
  Sample.parse "[object Blob]" = ParseThrows Sample.syntax_error
  /\ snd (_init (ReadBlobFails Sample.type_error))
     = FsRead PUTER_THEME_DATA_FILENAME
         :: ConsoleError [Sample.type_error]
         :: ConsoleError [VObj Sample.syntax_error]
         :: UIAlert
              (parse_alert "Expected property name or '}' in JSON at position 1")
         :: reload_ default_values.
Proof.
  split; [reflexivity|].
  exact (proj2 (proj2
           (init_alert_iff Sample.pow Sample.number_to_string
              Sample.string_to_number Sample.parse Sample.type_error true
              (ReadBlobFails Sample.type_error)))
           Sample.type_error Sample.syntax_error
           "Expected property name or '}' in JSON at position 1"
           eq_refl eq_refl eq_refl eq_refl).
Defined.

Lemma fields_always_present_witness :
  In "alpha" descriptor_fields
  /\ has_prop "alpha"
       (state (fst (run [Apply (VObj [("hue", VNum 120)]); Reset;
                         Apply (VObj [("alpha", VNull)])]
                        (fst (_init (ReadBlob Sample.colors_text))))))
     = true.
Proof.
  assert (H : In "alpha" descriptor_fields) by (simpl; tauto).
  split; [exact H|].
  exact (fields_always_present Sample.pow Sample.number_to_string
           Sample.string_to_number Sample.parse Sample.stringify
           Sample.type_error true
           (ReadBlob Sample.colors_text)
           [Apply (VObj [("hue", VNum 120)]); Reset;
            Apply (VObj [("alpha", VNull)])]
           "alpha" H).
Defined.

Lemma apply_nothing_witness :
  get "hue" (fst (apply VUndefined Sample.fresh)) = get "hue" Sample.fresh
  /\ In (SetTimeout 1 SAVE_COOLDOWN_TIME) (snd (apply VUndefined Sample.fresh)).
Proof.
  pose proof (apply_nothing Sample.pow Sample.number_to_string
                Sample.string_to_number Sample.type_error true
                Sample.fresh VUndefined eq_refl) as H.
  destruct (apply VUndefined Sample.fresh) as [m' es].
  destruct H as (H1 & H2 & _).
  split; [exact (H1 "hue")|exact (proj1 (proj2 (H2 eq_refl)))].
Defined.

Lemma burst_one_write_witness :
  writes (snd (run (burst [(VObj [("hue", VNum 120)], 300%N);
                           (VObj [("hue", VNum 210)], 999%N)]
                      ++ [Apply (VObj [("alpha", VNum 0.5)]); Elapse 1000])
                   Sample.fresh))
  = [Sample.stringify
       (VObj [("colors",
               VObj [("sat", VNum 41.18); ("hue", VNum 210);
                     ("lig", VNum 93.33); ("alpha", VNum 0.5);
                     ("light_text", VBool false)])]) 5].
Proof.
  assert (Hl : Forall (fun vd => (snd vd < SAVE_COOLDOWN_TIME)%N)
                 [(VObj [("hue", VNum 120)], 300%N);
                  (VObj [("hue", VNum 210)], 999%N)])
    by (repeat constructor).
  assert (Hlate : (SAVE_COOLDOWN_TIME <= 1000)%N)
    by (intros C; vm_compute in C; discriminate C).
  assert (Hr : Forall (fun s => throws (reload_ s) = false)
                 (merges (state Sample.fresh)
                    (map fst [(VObj [("hue", VNum 120)], 300%N);
                              (VObj [("hue", VNum 210)], 999%N)]
                       ++ [VObj [("alpha", VNum 0.5)]])))
    by (repeat constructor).
  pose proof (burst_one_write Sample.pow Sample.number_to_string
                Sample.string_to_number Sample.stringify
                Sample.type_error true Sample.fresh
                [(VObj [("hue", VNum 120)], 300%N);
                 (VObj [("hue", VNum 210)], 999%N)]
                (VObj [("alpha", VNum 0.5)]) 1000
                fresh_one_pending Hl Hlate Hr) as H.
  destruct (run _ Sample.fresh) as [m' es].
  destruct H as (H1 & H2 & _). cbn [snd]. rewrite H2, H1. reflexivity.
Defined.

Lemma apply_eventually_saved_witness :
  store_after
    (snd (run ([Apply (VObj [("sat", Sample.unconvertible)]); Reset]
                 ++ Apply (VObj [("alpha", VNum 0.5)])
                 :: map Elapse [400%N; 600%N])
              Sample.fresh)) (Some "old")
  = Some (Sample.stringify
            (VObj [("colors",
                    VObj [("sat", VNum 41.18); ("hue", VNum 210);
                          ("lig", VNum 93.33); ("alpha", VNum 0.5);
                          ("light_text", VBool false)])]) 5).
Proof.
  assert (Hlate : (SAVE_COOLDOWN_TIME <= total [400%N; 600%N])%N)
    by (intros C; vm_compute in C; discriminate C).
  pose proof (apply_eventually_saved Sample.pow Sample.number_to_string
                Sample.string_to_number Sample.stringify
                Sample.type_error true Sample.fresh
                [Apply (VObj [("sat", Sample.unconvertible)]); Reset]
                (VObj [("alpha", VNum 0.5)]) [400%N; 600%N] (Some "old")
                fresh_one_pending Hlate eq_refl) as H.
  destruct (run _ Sample.fresh) as [m' es].
  destruct H as (H1 & H2 & _). cbn [snd]. rewrite H1, H2. reflexivity.
Defined.

Lemma apply_not_saved_early_witness :
  store_after
    (snd (run (Apply (VObj [("hue", VNum 120)]) :: map Elapse [300%N; 600%N])
              Sample.fresh)) (Some "old")
  = Some "old".
Proof.
  pose proof (apply_not_saved_early Sample.pow Sample.number_to_string
                Sample.string_to_number Sample.stringify
                Sample.type_error true Sample.fresh
                (VObj [("hue", VNum 120)]) [300%N; 600%N] (Some "old")
                fresh_one_pending eq_refl eq_refl) as H.
  destruct (run _ Sample.fresh) as [m' es].
  exact (proj1 (proj2 H)).
Defined.

Lemma reset_when_quiet_deletes_witness :
  store_after (snd (run (Reset :: map Elapse [5000%N]) Sample.fresh))
              (Some "old")
  = None.
Proof.
  pose proof (reset_when_quiet_deletes Sample.pow Sample.number_to_string
                Sample.string_to_number Sample.stringify
                Sample.type_error true Sample.fresh
                [5000%N] (Some "old") eq_refl) as H.
  destruct (run _ Sample.fresh) as [m' es].
  exact (proj2 (proj2 H)).
Defined.

Lemma apply_throws_unsaved_witness :
  let '(m', es) :=
    run (Apply (VObj [("sat", Sample.unconvertible)]) :: map Elapse [5000%N])
        Sample.fresh in
  get "sat" m' = Sample.unconvertible
  /\ writes es = []
  /\ store_after es (Some "old") = Some "old".
Proof.
  pose proof (apply_throws_unsaved Sample.pow Sample.number_to_string
                Sample.string_to_number Sample.stringify
                Sample.type_error true Sample.fresh
                (VObj [("sat", Sample.unconvertible)]) [5000%N] (Some "old")
                eq_refl eq_refl) as H.
  destruct (run _ Sample.fresh) as [m' es].
  destruct H as (_ & H2 & _ & _ & _ & H6 & H7 & _).
  split; [exact (H2 "sat")|]. split; [exact H6|exact H7].
Defined.


End Examples.
